(** * Win+D single monitor: a shallow embedding of [main.py]

    The development follows the program's own layout: monitor helpers,
    window helpers, the [Controller] (toggle state machine) and the
    [WinDHook] low-level keyboard hook.  Python integers are [Z], lists are
    [list], [None]-or-value results are [option]; a WinAPI call that may
    raise is a function into [option] ([None] = the call raises). *)

From Stdlib Require Import ZArith List Bool String Lia.
From Stdlib Require Import DecimalString DecimalZ DecimalPos.
Import ListNotations.
Open Scope Z_scope.

(* ------------------------------------------------------------------ *)
(** ** Monitor helpers *)

(** A rectangle as pywin32 reports it: the tuple [(l, t, r, b)]. *)
Definition Rect : Type := (Z * Z * Z * Z)%type.

Definition r_left (rc : Rect) : Z := let '(l, _, _, _) := rc in l.
Definition r_top (rc : Rect) : Z := let '(_, t, _, _) := rc in t.
Definition r_right (rc : Rect) : Z := let '(_, _, r, _) := rc in r.
Definition r_bottom (rc : Rect) : Z := let '(_, _, _, b) := rc in b.

(** One entry of the list built by [get_monitors]: the dict with keys
    ["handle"], ["rect"] and ["primary"]. *)
Record Monitor : Type := mkMonitor {
  handle : Z;
  rect : Rect;
  primary : bool
}.

(** [point_in_rect]: [l <= x < r and t <= y < b]. *)
Definition point_in_rect (x y : Z) (rc : Rect) : bool :=
  let '(l, t, r, b) := rc in
  ((l <=? x) && (x <? r)) && ((t <=? y) && (y <? b)).

(** The loop shared by [get_cursor_monitor_idx] and
    [get_window_monitor_idx]:
    [for i, m in enumerate(monitors): if point_in_rect(..): return i]
    followed by [return None].  [i] is the running index of [enumerate]. *)
Fixpoint monitor_at_point_from (i : nat) (x y : Z) (monitors : list Monitor)
  : option nat :=
  match monitors with
  | [] => None
  | m :: rest =>
      if point_in_rect x y (rect m) then Some i
      else monitor_at_point_from (S i) x y rest
  end.

Definition monitor_at_point (x y : Z) (monitors : list Monitor) : option nat :=
  monitor_at_point_from 0 x y monitors.

(* ------------------------------------------------------------------ *)
(** ** The desktop as the program observes it *)

Definition HWND : Type := Z.

(** The tuple returned by [win32gui.GetWindowPlacement]:
    [(flags, showCmd, ptMin, ptMax, rcNormal)]; the program reads
    component 1. *)
Record WINDOWPLACEMENT : Type := mkPlacement {
  wp_flags : Z;
  showCmd : Z;
  ptMinPosition : Z * Z;
  ptMaxPosition : Z * Z;
  rcNormalPosition : Rect
}.

(** A snapshot of what the WinAPI answers.  Per-window queries are
    functions of the handle; [None] means that the call raises. *)
Record World : Type := mkWorld {
  GetCursorPos : option (Z * Z);
  EnumWindows : list HWND;
  IsWindowVisible : HWND -> option Z;
  GetClassName : HWND -> option string;
  GetWindowLong_EXSTYLE : HWND -> option Z;
  GetWindowRect : HWND -> option Rect;
  GetWindowPlacement : HWND -> option WINDOWPLACEMENT;
  (** [win32api.EnumDisplayMonitors(None, None)]: [(hmon, hdc, rect)]. *)
  EnumDisplayMonitors : list (Z * Z * Rect);
  (** [win32api.GetMonitorInfo(hmon).get("Flags", 0)]. *)
  GetMonitorInfo_Flags : Z -> Z
}.

(** Values of the [win32con] constants the program names. *)
Definition WS_EX_TOOLWINDOW : Z := 128.
Definition SW_SHOWMINIMIZED : Z := 2.
Definition SW_MINIMIZE : Z := 6.
Definition SW_RESTORE : Z := 9.

(** [get_monitors]. *)
Definition get_monitors (w : World) : list Monitor :=
  map (fun e : Z * Z * Rect =>
         let '(hmon, _, rc) := e in
         {| handle := hmon; rect := rc;
            primary := GetMonitorInfo_Flags w hmon =? 1 |})
      (EnumDisplayMonitors w).

(** [get_cursor_monitor_idx]: the outer [option] is [None] when
    [GetCursorPos] raises, the inner one is the function's own
    index-or-[None] result. *)
Definition get_cursor_monitor_idx (monitors : list Monitor) (w : World)
  : option (option nat) :=
  match GetCursorPos w with
  | None => None
  | Some (x, y) => Some (monitor_at_point x y monitors)
  end.

(* ------------------------------------------------------------------ *)
(** ** Window helpers *)

(** [is_real_window]; [None] when one of the queries it reaches raises. *)
Definition is_real_window (w : World) (hwnd : HWND) : option bool :=
  match IsWindowVisible w hwnd with
  | None => None
  | Some v =>
      if v =? 0 then Some false
      else
        match GetClassName w hwnd with
        | None => None
        | Some cls =>
            if String.eqb cls "Progman" || String.eqb cls "Shell_TrayWnd"
            then Some false
            else
              match GetWindowLong_EXSTYLE w hwnd with
              | None => None
              | Some ex =>
                  if negb (Z.land ex WS_EX_TOOLWINDOW =? 0) then Some false
                  else Some true
              end
        end
  end.

(** [get_window_monitor_idx]: a failing [GetWindowRect] is caught and
    gives [None]; [//] is floor division. *)
Definition get_window_monitor_idx (w : World) (monitors : list Monitor)
  (hwnd : HWND) : option nat :=
  match GetWindowRect w hwnd with
  | None => None
  | Some (l, t, r, b) =>
      let cx := (l + r) / 2 in
      let cy := (t + b) / 2 in
      monitor_at_point cx cy monitors
  end.

(** Python's [mi == idx] for [mi] an index or [None] and [idx] an int. *)
Definition idx_eq (mi : option nat) (idx : Z) : bool :=
  match mi with
  | Some i => Z.of_nat i =? idx
  | None => false
  end.

(** The callback [cb] of [enum_windows_on_monitor], as a transformer of the
    [result] list it appends to; every exception is swallowed. *)
Definition cb (w : World) (monitors : list Monitor) (idx : Z)
  (result : list HWND) (hwnd : HWND) : list HWND :=
  match is_real_window w hwnd with
  | None => result
  | Some false => result
  | Some true =>
      let mi := get_window_monitor_idx w monitors hwnd in
      if idx_eq mi idx then
        match GetWindowPlacement w hwnd with
        | None => result
        | Some placement =>
            if negb (showCmd placement =? SW_SHOWMINIMIZED)
            then result ++ [hwnd]
            else result
        end
      else result
  end.

(** [enum_windows_on_monitor]: [EnumWindows] calls [cb] on every top-level
    window in the OS order. *)
Definition enum_windows_on_monitor (w : World) (monitors : list Monitor)
  (idx : Z) : list HWND :=
  fold_left (cb w monitors idx) (EnumWindows w) [].

(* ------------------------------------------------------------------ *)
(** ** Configuration storage *)

(** The dict returned by [load_config]. *)
Record Config : Type := mkConfig {
  allowed_monitor : Z;
  autostart : bool
}.

(** What [CONFIG_PATH] holds.  [Parsed am au] is a readable JSON object;
    [am] and [au] are the converted values of its two keys when present.
    [Unreadable] stands for every content on which reading, parsing or
    conversion raises. *)
Inductive ConfigFile : Type :=
| NoFile
| Unreadable
| Parsed (am : option Z) (au : option bool).

Record Disk : Type := mkDisk {
  config_file : ConfigFile;
  (** whether [mkdir]/[write_text] succeed *)
  writable : bool;
  (** when they do not: whether the failure comes once [write_text] has
      opened the file for writing, which empties it, rather than before
      (at [mkdir] or at the opening itself) *)
  fails_after_open : bool
}.

(** How a call ends for its caller. *)
Inductive Outcome : Type := Returned | Raised.

Definition default_config : Config :=
  {| allowed_monitor := 0; autostart := false |}.

(** [load_config]. *)
Definition load_config (d : Disk) : Config :=
  match config_file d with
  | Parsed am au =>
      {| allowed_monitor := match am with Some a => a | None => 0 end;
         autostart := match au with Some b => b | None => false end |}
  | NoFile | Unreadable => default_config
  end.

(** [save_config]: on success the file holds exactly the two keys of [cfg].
    [write_text] opens the file in mode ["w"], which truncates it, before
    it writes: a write that fails after the opening leaves an empty or
    partial file, on which [json.loads] raises; a failure before the
    opening leaves the file as it was. *)
Definition save_config (d : Disk) (c : Config) : Disk * Outcome :=
  if writable d then
    ({| config_file := Parsed (Some (allowed_monitor c)) (Some (autostart c));
        writable := writable d;
        fails_after_open := fails_after_open d |}, Returned)
  else if fails_after_open d then
    ({| config_file := Unreadable;
        writable := writable d;
        fails_after_open := fails_after_open d |}, Raised)
  else (d, Raised).

(* ------------------------------------------------------------------ *)
(** ** Core controller *)

(** The fields of [Controller] ([_lock] guards them and holds no data). *)
Record Controller : Type := mkController {
  cfg : Config;
  monitors : list Monitor;
  allowed : Z;
  toggled : bool;
  minimized : list HWND
}.

(** A window-state call issued to the OS: [win32gui.ShowWindow(h, cmd)]. *)
Inductive OsCall : Type :=
| ShowWindow (hwnd : HWND) (nCmdShow : Z).

(** [Controller.__init__]. *)
Definition Controller_init (d : Disk) (w : World) : Controller :=
  let c := load_config d in
  {| cfg := c;
     monitors := get_monitors w;
     allowed := allowed_monitor c;
     toggled := false;
     minimized := [] |}.

(** [Controller.refresh_monitors]. *)
Definition refresh_monitors (self : Controller) (w : World) : Controller :=
  {| cfg := cfg self;
     monitors := get_monitors w;
     allowed := allowed self;
     toggled := toggled self;
     minimized := minimized self |}.

(** [Controller.set_allowed]: the two assignments happen before
    [save_config], so they stay when the write raises. *)
Definition set_allowed (self : Controller) (d : Disk) (idx : Z)
  : Controller * Disk * Outcome :=
  let a := Z.max 0 idx in
  let c := {| allowed_monitor := a; autostart := autostart (cfg self) |} in
  let self' := {| cfg := c;
                  monitors := monitors self;
                  allowed := a;
                  toggled := toggled self;
                  minimized := minimized self |} in
  let '(d', out) := save_config d c in
  (self', d', out).

(** [Controller.toggle_desktop_single_monitor], the [trigger()] of the
    specification.  It returns the new controller, the [ShowWindow] calls it
    made in order (a call that raises is swallowed, so it is listed all the
    same) and how it ended: it raises only when [GetCursorPos] does. *)
Definition toggle_desktop_single_monitor (self : Controller) (w : World)
  : Controller * list OsCall * Outcome :=
  let mons := monitors self in
  let allowed_ := allowed self in
  match get_cursor_monitor_idx mons w with
  | None => (self, [], Raised)
  | Some cursor_m =>
      if negb (idx_eq cursor_m allowed_) then (self, [], Returned)
      else if negb (toggled self) then
        let wins := enum_windows_on_monitor w mons allowed_ in
        ({| cfg := cfg self;
            monitors := monitors self;
            allowed := allowed self;
            toggled := true;
            minimized := wins |},
         map (fun h => ShowWindow h SW_MINIMIZE) wins,
         Returned)
      else
        ({| cfg := cfg self;
            monitors := monitors self;
            allowed := allowed self;
            toggled := false;
            minimized := [] |},
         map (fun h => ShowWindow h SW_RESTORE) (rev (minimized self)),
         Returned)
  end.

(** *** [set_allowed], statement by statement *)

(** What [set_allowed] executes, in order: the entry to its
    [with self._lock:] block, the three statements of the block, and the
    exit from the block, which happens also when a statement raises. *)
Inductive Access : Type :=
| LockAcquire
| LockRelease
| StoreAllowed (idx : Z)    (* self.allowed = max(0, idx) *)
| StoreCfgAllowed           (* self.cfg["allowed_monitor"] = self.allowed *)
| CallSaveConfig.           (* save_config(self.cfg) *)

Definition set_allowed_accesses (idx : Z) : list Access :=
  [LockAcquire; StoreAllowed idx; StoreCfgAllowed; CallSaveConfig;
   LockRelease].

(** The controller and the storage while a method runs, whether
    [self._lock] is held, and whether an exception is under way. *)
Record Machine : Type := mkMachine {
  m_ctrl : Controller;
  m_disk : Disk;
  m_lock_held : bool;
  m_outcome : Outcome
}.

(** One access.  Once an exception is under way the statements of the block
    are skipped; the lock is released all the same. *)
Definition perform (m : Machine) (a : Access) : Machine :=
  match a with
  | LockAcquire =>
      {| m_ctrl := m_ctrl m; m_disk := m_disk m; m_lock_held := true;
         m_outcome := m_outcome m |}
  | LockRelease =>
      {| m_ctrl := m_ctrl m; m_disk := m_disk m; m_lock_held := false;
         m_outcome := m_outcome m |}
  | StoreAllowed idx =>
      match m_outcome m with
      | Raised => m
      | Returned =>
          {| m_ctrl := {| cfg := cfg (m_ctrl m);
                          monitors := monitors (m_ctrl m);
                          allowed := Z.max 0 idx;
                          toggled := toggled (m_ctrl m);
                          minimized := minimized (m_ctrl m) |};
             m_disk := m_disk m; m_lock_held := m_lock_held m;
             m_outcome := Returned |}
      end
  | StoreCfgAllowed =>
      match m_outcome m with
      | Raised => m
      | Returned =>
          {| m_ctrl := {| cfg := {| allowed_monitor := allowed (m_ctrl m);
                                    autostart := autostart (cfg (m_ctrl m)) |};
                          monitors := monitors (m_ctrl m);
                          allowed := allowed (m_ctrl m);
                          toggled := toggled (m_ctrl m);
                          minimized := minimized (m_ctrl m) |};
             m_disk := m_disk m; m_lock_held := m_lock_held m;
             m_outcome := Returned |}
      end
  | CallSaveConfig =>
      match m_outcome m with
      | Raised => m
      | Returned =>
          let '(d', out) := save_config (m_disk m) (cfg (m_ctrl m)) in
          {| m_ctrl := m_ctrl m; m_disk := d';
             m_lock_held := m_lock_held m; m_outcome := out |}
      end
  end.

(** Every store and every save of the sequence happens while the lock is
    held, the lock is not taken twice, and it is free at the end. *)
Fixpoint locked_throughout (held : bool) (l : list Access) : bool :=
  match l with
  | [] => negb held
  | LockAcquire :: rest => negb held && locked_throughout true rest
  | LockRelease :: rest => held && locked_throughout false rest
  | (StoreAllowed _ | StoreCfgAllowed | CallSaveConfig) :: rest =>
      held && locked_throughout held rest
  end.

(** *** Runs of the controller *)

(** The operations a client performs on an initialised controller, each with
    the part of the environment it reads. *)
Inductive Op : Type :=
| OpTrigger (w : World)
| OpSetAllowed (idx : Z) (d : Disk)
| OpRefresh (w : World).

Definition step (self : Controller) (o : Op) : Controller * list OsCall :=
  match o with
  | OpTrigger w =>
      let '(self', calls, _) := toggle_desktop_single_monitor self w in
      (self', calls)
  | OpSetAllowed idx d =>
      let '(self', _, _) := set_allowed self d idx in (self', [])
  | OpRefresh w => (refresh_monitors self w, [])
  end.

(** One executed operation: the controller before, the operation, the OS
    calls it made and the controller after. *)
Record Event : Type := mkEvent {
  ev_pre : Controller;
  ev_op : Op;
  ev_calls : list OsCall;
  ev_post : Controller
}.

(** [run_from self hist ops] performs [ops] in order; [hist] is the history
    so far, most recent event first. *)
Fixpoint run_from (self : Controller) (hist : list Event) (ops : list Op)
  : Controller * list Event :=
  match ops with
  | [] => (self, hist)
  | o :: rest =>
      let '(self', calls) := step self o in
      run_from self'
        ({| ev_pre := self; ev_op := o; ev_calls := calls;
            ev_post := self' |} :: hist)
        rest
  end.

(** A controller created from disk [d] and desktop [w0], then driven by
    [ops]. *)
Definition run (d : Disk) (w0 : World) (ops : list Op)
  : Controller * list Event :=
  run_from (Controller_init d w0) [] ops.

(** An event that took the controller from Idle to Minimized. *)
Definition is_minimize_transition (e : Event) : bool :=
  negb (toggled (ev_pre e)) && toggled (ev_post e).

(** The most recent Idle-to-Minimized transition of a history. *)
Definition last_minimize_transition (hist : list Event) : option Event :=
  find is_minimize_transition hist.

(** The handles an event asked the OS to minimize, in call order. *)
Fixpoint minimized_by (calls : list OsCall) : list HWND :=
  match calls with
  | [] => []
  | ShowWindow h cmd :: rest =>
      if cmd =? SW_MINIMIZE then h :: minimized_by rest
      else minimized_by rest
  end.

(** The handles an event asked the OS to restore, in call order. *)
Fixpoint restored_by (calls : list OsCall) : list HWND :=
  match calls with
  | [] => []
  | ShowWindow h cmd :: rest =>
      if cmd =? SW_RESTORE then h :: restored_by rest
      else restored_by rest
  end.

(** The windows the trigger captures, said in the specification's words: a
    window is taken when it is visible, not of a reserved shell class,
    without the tool-window style, centred on monitor [idx] and not
    minimized (every query having answered). *)
Definition is_visible (w : World) (h : HWND) : bool :=
  match IsWindowVisible w h with
  | Some v => negb (v =? 0)
  | None => false
  end.

Definition reserved_class (s : string) : bool :=
  String.eqb s "Progman" || String.eqb s "Shell_TrayWnd".

Definition is_app_class (w : World) (h : HWND) : bool :=
  match GetClassName w h with
  | Some c => negb (reserved_class c)
  | None => false
  end.

Definition not_tool_window (w : World) (h : HWND) : bool :=
  match GetWindowLong_EXSTYLE w h with
  | Some ex => Z.land ex WS_EX_TOOLWINDOW =? 0
  | None => false
  end.

Definition centre_on (w : World) (mons : list Monitor) (idx : Z) (h : HWND)
  : bool :=
  match GetWindowRect w h with
  | Some (l, t, r, b) =>
      idx_eq (monitor_at_point ((l + r) / 2) ((t + b) / 2) mons) idx
  | None => false
  end.

Definition is_minimized (w : World) (h : HWND) : bool :=
  match GetWindowPlacement w h with
  | Some p => showCmd p =? SW_SHOWMINIMIZED
  | None => false
  end.

Definition not_minimized (w : World) (h : HWND) : bool :=
  match GetWindowPlacement w h with
  | Some p => negb (showCmd p =? SW_SHOWMINIMIZED)
  | None => false
  end.

Definition eligible_on (w : World) (mons : list Monitor) (idx : Z) (h : HWND)
  : bool :=
  is_visible w h && is_app_class w h && not_tool_window w h
  && centre_on w mons idx h && not_minimized w h.

(* ------------------------------------------------------------------ *)
(** ** WinAPI low-level keyboard hook *)

Definition WM_KEYDOWN : Z := 256.     (* 0x0100 *)
Definition WM_KEYUP : Z := 257.       (* 0x0101 *)
Definition WM_SYSKEYDOWN : Z := 260.  (* 0x0104 *)
Definition WM_SYSKEYUP : Z := 261.    (* 0x0105 *)

Definition VK_LWIN : Z := 91.         (* 0x5B *)
Definition VK_RWIN : Z := 92.         (* 0x5C *)
Definition VK_D : Z := 68.            (* 0x44 *)

Record KBDLLHOOKSTRUCT : Type := mkKbd {
  vkCode : Z;
  scanCode : Z;
  flags : Z;
  time : Z;
  dwExtraInfo : Z
}.

(** The data fields of a [WinDHook].  [hook] is the [HHOOK] ([None] for
    Python's [None], which is also what ctypes gives for a NULL handle);
    [thread] is [Some alive] once a thread object was created. *)
Record WinDHook : Type := mkHook {
  hook : option Z;
  thread : option bool;
  thread_id : option Z;
  _win_down : bool;
  _suppress_d_up : bool
}.

(** [WinDHook.__init__]. *)
Definition WinDHook_init : WinDHook :=
  {| hook := None; thread := None; thread_id := None;
     _win_down := false; _suppress_d_up := false |}.

(** What [_callback] hands back to the OS: [return 1] swallows the event,
    otherwise it returns the result of [CallNextHookEx] on its arguments. *)
Inductive HookRet : Type :=
| Swallow
| CallNextHookEx (hhk : option Z) (nCode wParam : Z) (lParam : KBDLLHOOKSTRUCT).

(** The observable result of one [_callback] invocation: whether
    [self.on_win_d()] was called, and the return value. *)
Record CbResult : Type := mkCb {
  on_win_d_called : bool;
  ret : HookRet
}.

Definition set_win_down (self : WinDHook) (b : bool) : WinDHook :=
  {| hook := hook self; thread := thread self; thread_id := thread_id self;
     _win_down := b; _suppress_d_up := _suppress_d_up self |}.

Definition set_suppress_d_up (self : WinDHook) (b : bool) : WinDHook :=
  {| hook := hook self; thread := thread self; thread_id := thread_id self;
     _win_down := _win_down self; _suppress_d_up := b |}.

(** [WinDHook._callback].  An exception of [on_win_d] is caught, so the
    control flow does not depend on how the handler ends. *)
Definition _callback (self : WinDHook) (nCode wParam : Z)
  (lParam : KBDLLHOOKSTRUCT) : WinDHook * CbResult :=
  let pass := {| on_win_d_called := false;
                 ret := CallNextHookEx (hook self) nCode wParam lParam |} in
  if nCode <? 0 then (self, pass)
  else
    let vk := vkCode lParam in
    let is_down := (wParam =? WM_KEYDOWN) || (wParam =? WM_SYSKEYDOWN) in
    let is_up := (wParam =? WM_KEYUP) || (wParam =? WM_SYSKEYUP) in
    if (vk =? VK_LWIN) || (vk =? VK_RWIN) then
      let self' :=
        if is_down then set_win_down self true
        else if is_up then set_win_down self false
        else self in
      (self', pass)
    else if _win_down self && (vk =? VK_D) && is_down then
      (set_suppress_d_up self true,
       {| on_win_d_called := true; ret := Swallow |})
    else if _suppress_d_up self && (vk =? VK_D) && is_up then
      (set_suppress_d_up self false,
       {| on_win_d_called := false; ret := Swallow |})
    else (self, pass).

(** One invocation of the hook procedure by the OS. *)
Record HookCall : Type := mkCall {
  nCode : Z;
  wParam : Z;
  lParam : KBDLLHOOKSTRUCT
}.

(** The hook after the OS delivered [calls] in order. *)
Fixpoint hook_after (self : WinDHook) (calls : list HookCall) : WinDHook :=
  match calls with
  | [] => self
  | c :: rest =>
      hook_after (fst (_callback self (nCode c) (wParam c) (lParam c))) rest
  end.

(** The results of the successive invocations. *)
Fixpoint hook_results (self : WinDHook) (calls : list HookCall)
  : list CbResult :=
  match calls with
  | [] => []
  | c :: rest =>
      let '(self', r) := _callback self (nCode c) (wParam c) (lParam c) in
      r :: hook_results self' rest
  end.

(** The result of delivering [c] after the calls [pre]. *)
Definition result_at (self : WinDHook) (pre : list HookCall) (c : HookCall)
  : CbResult :=
  snd (_callback (hook_after self pre) (nCode c) (wParam c) (lParam c)).

(** Passing [c] on untouched: [CallNextHookEx] on the very arguments
    received, and no call of the handler. *)
Definition passed_through (self : WinDHook) (c : HookCall) (r : CbResult)
  : Prop :=
  r = {| on_win_d_called := false;
         ret := CallNextHookEx (hook self) (nCode c) (wParam c) (lParam c) |}.

(** *** Key events, in the specification's vocabulary *)

(** The callback processes a call only when [nCode >= 0]. *)
Definition processed (c : HookCall) : bool := 0 <=? nCode c.

Definition key_down (c : HookCall) : bool :=
  (wParam c =? WM_KEYDOWN) || (wParam c =? WM_SYSKEYDOWN).

Definition key_up (c : HookCall) : bool :=
  (wParam c =? WM_KEYUP) || (wParam c =? WM_SYSKEYUP).

(** The modifier: either Win key. *)
Definition is_modifier (c : HookCall) : bool :=
  (vkCode (lParam c) =? VK_LWIN) || (vkCode (lParam c) =? VK_RWIN).

(** The secondary key: D. *)
Definition is_secondary (c : HookCall) : bool := vkCode (lParam c) =? VK_D.

Definition modifier_down (c : HookCall) : bool :=
  processed c && is_modifier c && key_down c.

Definition modifier_up (c : HookCall) : bool :=
  processed c && is_modifier c && key_up c.

Definition secondary_down (c : HookCall) : bool :=
  processed c && is_secondary c && key_down c.

Definition secondary_up (c : HookCall) : bool :=
  processed c && is_secondary c && key_up c.

(** The latest modifier edge of a history given most recent first:
    [Some true] for a press, [Some false] for a release. *)
Fixpoint last_modifier_edge (recent_first : list HookCall) : option bool :=
  match recent_first with
  | [] => None
  | c :: older =>
      if modifier_down c then Some true
      else if modifier_up c then Some false
      else last_modifier_edge older
  end.

(** The modifier is held after [pre]: its latest edge in [pre] is a
    press. *)
Definition modifier_held (pre : list HookCall) : bool :=
  match last_modifier_edge (rev pre) with
  | Some true => true
  | _ => false
  end.

(** A detection of the combination: D goes down while the modifier is
    held. *)
Definition detection (pre : list HookCall) (c : HookCall) : bool :=
  secondary_down c && modifier_held pre.

(** [c] is the first release of D after a detection in [pre]. *)
Definition awaited_release (pre : list HookCall) (c : HookCall) : Prop :=
  secondary_up c = true /\
  exists before d between,
    pre = before ++ d :: between /\
    detection before d = true /\
    forallb (fun m => negb (secondary_up m)) between = true.

(** Some call of [rest], delivered after [pre], is a detection. *)
Fixpoint detection_after (pre rest : list HookCall) : bool :=
  match rest with
  | [] => false
  | c :: rest' => detection pre c || detection_after (pre ++ [c]) rest'
  end.

(** The sequence contains a press of D that arrives while the modifier is
    held. *)
Definition has_detection (calls : list HookCall) : bool :=
  detection_after [] calls.

(** A modifier press immediately followed by a press of D, somewhere in
    the sequence. *)
Fixpoint adjacent_combo (calls : list HookCall) : bool :=
  match calls with
  | a :: ((b :: _) as rest) =>
      (modifier_down a && secondary_down b) || adjacent_combo rest
  | _ => false
  end.

(** Some invocation called the handler. *)
Definition triggers (rs : list CbResult) : bool :=
  existsb on_win_d_called rs.

(** Some invocation swallowed its event. *)
Definition suppresses (rs : list CbResult) : bool :=
  existsb (fun r => match ret r with Swallow => true | _ => false end) rs.

(** *** Starting the hook thread *)

(** What the hook thread gets from the OS: its thread id, the result of
    [SetWindowsHookExW] ([None] for NULL) and the successive return values
    of [GetMessageW]. *)
Record HookOS : Type := mkHookOS {
  GetCurrentThreadId : Z;
  SetWindowsHookExW : option Z;
  GetMessageW : list Z
}.

(** How the thread function ends; [ThreadWaiting] when it is still blocked
    in [GetMessageW]. *)
Inductive ThreadOutcome : Type :=
| ThreadRaised (msg : string)
| ThreadExited
| ThreadWaiting.

(** Truth value of a handle: [None] and [0] are false. *)
Definition truthy (h : option Z) : bool :=
  match h with
  | Some v => negb (v =? 0)
  | None => false
  end.

(** The message loop [while GetMessageW(...) != 0]: whether it is left
    within the given return values. *)
Fixpoint message_loop_exits (rets : list Z) : bool :=
  match rets with
  | [] => false
  | r :: rest => if r =? 0 then true else message_loop_exits rest
  end.

(** The thread function [run] of [WinDHook.start]. *)
Definition run_thread (self : WinDHook) (os : HookOS)
  : WinDHook * ThreadOutcome :=
  let self1 :=
    {| hook := SetWindowsHookExW os; thread := thread self;
       thread_id := Some (GetCurrentThreadId os);
       _win_down := _win_down self;
       _suppress_d_up := _suppress_d_up self |} in
  if negb (truthy (hook self1)) then
    (self1, ThreadRaised "Failed to install keyboard hook")
  else if message_loop_exits (GetMessageW os) then
    ({| hook := None; thread := thread self1; thread_id := thread_id self1;
        _win_down := _win_down self1;
        _suppress_d_up := _suppress_d_up self1 |}, ThreadExited)
  else (self1, ThreadWaiting).

(** Whether a thread with that outcome is still alive. *)
Definition still_alive (out : ThreadOutcome) : bool :=
  match out with
  | ThreadWaiting => true
  | ThreadRaised _ | ThreadExited => false
  end.

(** [WinDHook.start]: the hook object once the spawned thread has run as far
    as it gets, what the caller of [start] gets back, and the outcome of the
    thread, if one was spawned.  [run] executes in the new thread, so what
    it raises ends that thread and does not reach the caller. *)
Definition start (self : WinDHook) (os : HookOS)
  : WinDHook * Outcome * option ThreadOutcome :=
  match thread self with
  | Some true => (self, Returned, None)
  | _ =>
      let spawned :=
        {| hook := hook self; thread := Some true;
           thread_id := thread_id self;
           _win_down := _win_down self;
           _suppress_d_up := _suppress_d_up self |} in
      let '(self', out) := run_thread spawned os in
      ({| hook := hook self'; thread := Some (still_alive out);
          thread_id := thread_id self';
          _win_down := _win_down self';
          _suppress_d_up := _suppress_d_up self' |},
       Returned, Some out)
  end.

(** Half-open containment of a point in a rectangle, as the specification
    words it: [left <= x < right] and [top <= y < bottom]. *)
Definition contains (rc : Rect) (x y : Z) : Prop :=
  (r_left rc <= x < r_right rc) /\ (r_top rc <= y < r_bottom rc).

(** "The monitor under the cursor differs from the allowed one": no
    monitor at all, or one whose index is not [a]. *)
Definition differs (cursor_m : option nat) (a : Z) : Prop :=
  match cursor_m with
  | None => True
  | Some i => Z.of_nat i <> a
  end.

(** The cursor is on the allowed monitor of [self]. *)
Definition cursor_on_allowed (self : Controller) (w : World) : Prop :=
  exists i : nat,
    get_cursor_monitor_idx (monitors self) w = Some (Some i) /\
    Z.of_nat i = allowed self.

(** The key-tracking flags are clear, as [__init__] leaves them. *)
Definition tracking_clear (self : WinDHook) : Prop :=
  _win_down self = false /\ _suppress_d_up self = false.

(** The invariant of the toggle state, over the controller and the history
    of its operations: Idle holds no window; Minimized holds exactly the
    windows minimized by the most recent Idle-to-Minimized transition, which
    are the eligible windows of the desktop that trigger saw, in enumeration
    order. *)
Definition toggle_invariant (self : Controller) (hist : list Event) : Prop :=
  (toggled self = false -> minimized self = []) /\
  (toggled self = true ->
   exists (e : Event) (w : World),
     last_minimize_transition hist = Some e /\
     ev_op e = OpTrigger w /\
     minimized self = minimized_by (ev_calls e) /\
     minimized self =
       filter (eligible_on w (monitors (ev_pre e)) (allowed (ev_pre e)))
              (EnumWindows w)).

(* ------------------------------------------------------------------ *)
(** ** Example data *)

(** The two-monitor desktop of the specification's scenario. *)
Definition two_monitors : list Monitor :=
  [ {| handle := 1; rect := (0, 0, 1920, 1080); primary := true |};
    {| handle := 2; rect := (1920, 0, 3840, 1080); primary := false |} ].

Definition normal_placement : WINDOWPLACEMENT :=
  {| wp_flags := 0; showCmd := 1; ptMinPosition := (-1, -1);
     ptMaxPosition := (-1, -1); rcNormalPosition := (0, 0, 800, 600) |}.

Definition minimized_placement : WINDOWPLACEMENT :=
  {| wp_flags := 0; showCmd := SW_SHOWMINIMIZED; ptMinPosition := (-1, -1);
     ptMaxPosition := (-1, -1); rcNormalPosition := (0, 0, 800, 600) |}.

(** A desktop with five top-level windows: 10 and 11 are ordinary windows on
    the left monitor, 12 is an ordinary window on the right monitor, 13 is
    on the left monitor but already minimized, 14 is the shell's desktop
    window.  The cursor is at [(100, 100)]. *)
Definition desk : World :=
  {| GetCursorPos := Some (100, 100);
     EnumWindows := [10; 11; 12; 13; 14];
     IsWindowVisible := fun _ => Some 1;
     GetClassName := fun h => if h =? 14 then Some "Progman"%string
                              else Some "Notepad"%string;
     GetWindowLong_EXSTYLE := fun _ => Some 256;
     GetWindowRect := fun h => if h =? 12 then Some (2000, 100, 2800, 700)
                               else Some (100, 100, 900, 700);
     GetWindowPlacement := fun h => if h =? 13 then Some minimized_placement
                                    else Some normal_placement;
     EnumDisplayMonitors := [(1, 0, (0, 0, 1920, 1080));
                             (2, 0, (1920, 0, 3840, 1080))];
     GetMonitorInfo_Flags := fun hmon => if hmon =? 1 then 1 else 0 |}.

(** The same desktop with the cursor on the right monitor. *)
Definition desk_cursor_right : World :=
  {| GetCursorPos := Some (2500, 100);
     EnumWindows := EnumWindows desk;
     IsWindowVisible := IsWindowVisible desk;
     GetClassName := GetClassName desk;
     GetWindowLong_EXSTYLE := GetWindowLong_EXSTYLE desk;
     GetWindowRect := GetWindowRect desk;
     GetWindowPlacement := GetWindowPlacement desk;
     EnumDisplayMonitors := EnumDisplayMonitors desk;
     GetMonitorInfo_Flags := GetMonitorInfo_Flags desk |}.

(** The example desktop without any top-level window. *)
Definition bare_desk : World :=
  {| GetCursorPos := GetCursorPos desk;
     EnumWindows := [];
     IsWindowVisible := IsWindowVisible desk;
     GetClassName := GetClassName desk;
     GetWindowLong_EXSTYLE := GetWindowLong_EXSTYLE desk;
     GetWindowRect := GetWindowRect desk;
     GetWindowPlacement := GetWindowPlacement desk;
     EnumDisplayMonitors := EnumDisplayMonitors desk;
     GetMonitorInfo_Flags := GetMonitorInfo_Flags desk |}.

(** No configuration file yet, on a writable disk. *)
Definition empty_disk : Disk :=
  {| config_file := NoFile; writable := true; fails_after_open := false |}.

(** A configuration file whose [allowed_monitor] is [-1]. *)
Definition negative_disk : Disk :=
  {| config_file := Parsed (Some (-1)) (Some false); writable := true;
     fails_after_open := false |}.

Definition key (vk : Z) : KBDLLHOOKSTRUCT :=
  {| vkCode := vk; scanCode := 0; flags := 0; time := 0; dwExtraInfo := 0 |}.

Definition press (vk : Z) : HookCall :=
  {| nCode := 0; wParam := WM_KEYDOWN; lParam := key vk |}.

Definition release (vk : Z) : HookCall :=
  {| nCode := 0; wParam := WM_KEYUP; lParam := key vk |}.

Definition VK_E : Z := 69.

(** Win down, E down, E up, D down, D up, Win up: D is pressed while Win is
    still held, but not right after Win went down. *)
Definition win_e_then_d : list HookCall :=
  [press VK_LWIN; press VK_E; release VK_E; press VK_D; release VK_D;
   release VK_LWIN].

(** D pressed and released alone, then Win+E, then D again after Win was
    released: the combination never occurs. *)
Definition d_without_win : list HookCall :=
  [press VK_D; release VK_D; press VK_RWIN; press VK_E; release VK_E;
   release VK_RWIN; press VK_D; release VK_D].

(** An OS on which the keyboard hook cannot be installed. *)
Definition os_refusing_hook : HookOS :=
  {| GetCurrentThreadId := 4242; SetWindowsHookExW := None;
     GetMessageW := [] |}.

(** An OS that installs the hook and delivers two messages, then nothing
    yet. *)
Definition os_running : HookOS :=
  {| GetCurrentThreadId := 4242; SetWindowsHookExW := Some 77;
     GetMessageW := [1; 1] |}.

(** An OS that installs the hook, delivers a message and then the quit
    message. *)
Definition os_quitting : HookOS :=
  {| GetCurrentThreadId := 4242; SetWindowsHookExW := Some 77;
     GetMessageW := [1; 0] |}.

(* ------------------------------------------------------------------ *)
(** ** Counting what the hook does *)

(** How many calls of [rest], delivered after [pre], are detections. *)
Fixpoint count_detections (pre rest : list HookCall) : nat :=
  match rest with
  | [] => 0%nat
  | c :: rest' =>
      ((if detection pre c then 1 else 0)
       + count_detections (pre ++ [c]) rest')%nat
  end.

Definition is_swallow (r : CbResult) : bool :=
  match ret r with
  | Swallow => true
  | CallNextHookEx _ _ _ _ => false
  end.

(** How many invocations called the handler. *)
Definition handler_calls (rs : list CbResult) : nat :=
  List.length (filter on_win_d_called rs).

(** How many invocations swallowed their event. *)
Definition swallowed (rs : list CbResult) : nat :=
  List.length (filter is_swallow rs).

(* ------------------------------------------------------------------ *)
(** ** The application: hook wired to controller *)

(** [run_app] builds [WinDHook(on_win_d=ctrl.toggle_desktop_single_monitor)]:
    the two objects the key traffic drives. *)
Record App : Type := mkApp {
  app_hook : WinDHook;
  app_ctrl : Controller
}.

(** One call of the hook procedure with the desktop [w] of that moment.
    When [_callback] calls the handler, the handler is the controller's
    trigger; how the trigger ends is discarded by the [try/except] of
    [_callback]. *)
Definition deliver (a : App) (c : HookCall) (w : World)
  : App * list OsCall * HookRet :=
  let '(h', r) := _callback (app_hook a) (nCode c) (wParam c) (lParam c) in
  if on_win_d_called r then
    let '(ctrl', calls, _) := toggle_desktop_single_monitor (app_ctrl a) w in
    ({| app_hook := h'; app_ctrl := ctrl' |}, calls, ret r)
  else ({| app_hook := h'; app_ctrl := app_ctrl a |}, [], ret r).

(** A whole key traffic: the application afterwards and every OS call made,
    in order. *)
Fixpoint deliver_all (a : App) (traffic : list (HookCall * World))
  : App * list OsCall :=
  match traffic with
  | [] => (a, [])
  | (c, w) :: rest =>
      let '(a', calls, _) := deliver a c w in
      let '(a'', calls') := deliver_all a' rest in
      (a'', calls ++ calls')
  end.

(** The triggers a key traffic amounts to: one per detection, with the
    desktop of that moment.  [pre] is the traffic delivered before. *)
Fixpoint trigger_ops (pre : list HookCall) (traffic : list (HookCall * World))
  : list Op :=
  match traffic with
  | [] => []
  | (c, w) :: rest =>
      if detection pre c then OpTrigger w :: trigger_ops (pre ++ [c]) rest
      else trigger_ops (pre ++ [c]) rest
  end.

(** Every OS call of a history, oldest first. *)
Definition all_calls (hist : list Event) : list OsCall :=
  List.concat (map ev_calls (rev hist)).

(** In a history given most recent first, every restore batch is the reverse
    of the batch minimized by the latest Idle-to-Minimized transition before
    it. *)
Fixpoint restores_paired (hist : list Event) : Prop :=
  match hist with
  | [] => True
  | e :: older =>
      (restored_by (ev_calls e) = [] \/
       exists e0,
         last_minimize_transition older = Some e0 /\
         restored_by (ev_calls e) = rev (minimized_by (ev_calls e0))) /\
      restores_paired older
  end.

(** The monitor rectangles do not overlap: no point lies in two of them. *)
Definition disjoint_monitors (mons : list Monitor) : Prop :=
  forall (i j : nat) (mi mj : Monitor) (x y : Z),
    nth_error mons i = Some mi -> nth_error mons j = Some mj ->
    contains (rect mi) x y -> contains (rect mj) x y -> i = j.

(** Rectangle [inner] lies within rectangle [outer]. *)
Definition rect_within (inner outer : Rect) : Prop :=
  r_left outer <= r_left inner /\ r_right inner <= r_right outer /\
  r_top outer <= r_top inner /\ r_bottom inner <= r_bottom outer.

(* ------------------------------------------------------------------ *)
(** ** Autostart (Startup folder shortcut) *)

(** The properties [set_autostart] gives the shortcut before saving it. *)
Record Shortcut : Type := mkShortcut {
  Targetpath : string;
  Arguments : string;
  WorkingDirectory : string;
  IconLocation : string
}.

(** The Startup folder as [set_autostart] meets it: the file at
    [shortcut_path()] if any, what [get_launch_target_and_args()] and the
    script's directory are, and whether creating the folder, driving the
    [WScript.Shell] object up to [save()], and deleting the file succeed. *)
Record Startup : Type := mkStartup {
  lnk : option Shortcut;
  launch_target : string;
  launch_args : string;
  script_dir : string;
  mkdir_ok : bool;
  com_ok : bool;
  unlink_ok : bool
}.

Definition with_lnk (s : Startup) (l : option Shortcut) : Startup :=
  {| lnk := l; launch_target := launch_target s;
     launch_args := launch_args s; script_dir := script_dir s;
     mkdir_ok := mkdir_ok s; com_ok := com_ok s; unlink_ok := unlink_ok s |}.

(** [is_autostart_enabled]: [shortcut_path().exists()]. *)
Definition is_autostart_enabled (s : Startup) : bool :=
  match lnk s with
  | Some _ => true
  | None => false
  end.

(** [set_autostart]: every exception inside is re-raised as a
    [RuntimeError]; nothing is written before [shortcut.save()]. *)
Definition set_autostart (s : Startup) (enabled : bool) : Startup * Outcome :=
  if negb (mkdir_ok s) then (s, Raised)
  else if enabled then
    if com_ok s then
      (with_lnk s (Some {| Targetpath := launch_target s;
                           Arguments := launch_args s;
                           WorkingDirectory := script_dir s;
                           IconLocation := launch_target s |}),
       Returned)
    else (s, Raised)
  else
    match lnk s with
    | Some _ => if unlink_ok s then (with_lnk s None, Returned)
                else (s, Raised)
    | None => (s, Returned)
    end.

(** The "apply autostart preference" step of [run_app]: the shortcut is
    touched only when it disagrees with the configuration, and a failure is
    swallowed. *)
Definition apply_autostart_preference (ctrl : Controller) (s : Startup)
  : Startup :=
  let desired := autostart (cfg ctrl) in
  if negb (Bool.eqb desired (is_autostart_enabled s))
  then fst (set_autostart s desired)
  else s.

(* ------------------------------------------------------------------ *)
(** ** Settings window *)

(** Python's [str] on an integer: decimal digits, ["-"] in front of a
    negative number. *)
Definition py_str (z : Z) : string := NilZero.string_of_int (Z.to_int z).

(** What the settings window shows: the autostart check box, the monitor
    menu (its offered values and the value on display) and how many error
    dialogs it opened. *)
Record SettingsWindow : Type := mkSettings {
  autostart_var : bool;
  monitor_var : string;
  menu_values : list string;
  errors_shown : nat
}.

(** [SettingsWindow.available_monitor_values]:
    [[str(i) for i in range(1, n + 1)]] with [n = max(1, len(monitors))]. *)
Definition available_monitor_values (ctrl : Controller) : list string :=
  let n := Nat.max 1 (List.length (monitors ctrl)) in
  map (fun i : nat => py_str (Z.of_nat i)) (seq 1 n).

Section MonitorMenu.

(** Python's [int] on a string; [None] when it raises. *)
Variable py_int : string -> option Z.

(** [SettingsWindow.on_monitor_change]: any exception, that of a failed
    save included, is swallowed. *)
Definition on_monitor_change (ctrl : Controller) (d : Disk)
  (value : string) : Controller * Disk :=
  match py_int value with
  | None => (ctrl, d)
  | Some v =>
      let idx := v - 1 in
      let '(ctrl', d', _) := set_allowed ctrl d idx in
      (ctrl', d')
  end.

End MonitorMenu.

(** [SettingsWindow.on_refresh]: [render_monitors] refreshes the
    controller's monitors; then the menu gets the new values and displays
    [str(min(allowed + 1, len(monitors) or 1))]. *)
Definition on_refresh (ui : SettingsWindow) (ctrl : Controller) (w : World)
  : SettingsWindow * Controller :=
  let ctrl' := refresh_monitors ctrl w in
  let current := allowed ctrl' + 1 in
  let len := List.length (monitors ctrl') in
  let len_or_1 := if Nat.eqb len 0 then 1 else Z.of_nat len in
  ({| autostart_var := autostart_var ui;
      monitor_var := py_str (Z.min current len_or_1);
      menu_values := available_monitor_values ctrl';
      errors_shown := errors_shown ui |},
   ctrl').

Definition set_cfg_autostart (ctrl : Controller) (b : bool) : Controller :=
  {| cfg := {| allowed_monitor := allowed_monitor (cfg ctrl); autostart := b |};
     monitors := monitors ctrl;
     allowed := allowed ctrl;
     toggled := toggled ctrl;
     minimized := minimized ctrl |}.

Definition report_error (ui : SettingsWindow) (s : Startup) : SettingsWindow :=
  {| autostart_var := is_autostart_enabled s;
     monitor_var := monitor_var ui;
     menu_values := menu_values ui;
     errors_shown := S (errors_shown ui) |}.

(** [SettingsWindow.on_autostart_toggle], called with the check box already
    at its new value.  On any exception the check box is put back to what
    the Startup folder says and an error dialog is opened. *)
Definition on_autostart_toggle (ui : SettingsWindow) (ctrl : Controller)
  (d : Disk) (s : Startup)
  : SettingsWindow * Controller * Disk * Startup :=
  let enabled := autostart_var ui in
  match set_autostart s enabled with
  | (s', Raised) => (report_error ui s', ctrl, d, s')
  | (s', Returned) =>
      let ctrl' := set_cfg_autostart ctrl enabled in
      match save_config d (cfg ctrl') with
      | (d', Returned) => (ui, ctrl', d', s')
      | (d', Raised) => (report_error ui s', ctrl', d', s')
      end
  end.

(** A controller whose snapshot holds one monitor and whose allowed index
    is 1. *)
Definition one_monitor_ctrl : Controller :=
  {| cfg := {| allowed_monitor := 1; autostart := false |};
     monitors := [ {| handle := 1; rect := (0, 0, 1920, 1080);
                      primary := true |} ];
     allowed := 1;
     toggled := false;
     minimized := [] |}.

(** A Startup folder without shortcut where everything succeeds. *)
Definition fresh_startup : Startup :=
  {| lnk := None; launch_target := "pythonw.exe"; launch_args := "main.py";
     script_dir := "app"; mkdir_ok := true; com_ok := true;
     unlink_ok := true |}.

(** A Startup folder without shortcut where the shell object fails. *)
Definition broken_startup : Startup :=
  {| lnk := None; launch_target := "pythonw.exe"; launch_args := "main.py";
     script_dir := "app"; mkdir_ok := true; com_ok := false;
     unlink_ok := true |}.

(** A read-only disk holding no configuration. *)
Definition readonly_disk : Disk :=
  {| config_file := NoFile; writable := false; fails_after_open := false |}.

(** A disk holding a configuration (monitor 1, autostart on) on which a
    write fails once the file is open, as when the disk is full. *)
Definition full_disk : Disk :=
  {| config_file := Parsed (Some 1) (Some true); writable := false;
     fails_after_open := true |}.

(** A settings window whose check box was just ticked. *)
Definition ticked : SettingsWindow :=
  {| autostart_var := true; monitor_var := "1";
     menu_values := ["1"%string; "2"%string];
     errors_shown := 0 |}.

(** [int] on the decimal strings [str] produces. *)
Definition int_of_decimal (s : string) : option Z :=
  option_map Z.of_int (NilZero.int_of_string s).

(* ================================================================== *)
(** * Properties *)

(* ------------------------------------------------------------------ *)
(** ** Monitor registry *)

Lemma point_in_rect_iff (x y : Z) (rc : Rect) :
  point_in_rect x y rc = true <-> contains rc x y.
Proof.
  destruct rc as [[[l t] r] b]. unfold point_in_rect, contains. cbn.
  rewrite !andb_true_iff, !Z.leb_le, !Z.ltb_lt. tauto.
Qed.

Lemma point_in_rect_false_iff (x y : Z) (rc : Rect) :
  point_in_rect x y rc = false <-> ~ contains rc x y.
Proof.
  rewrite <- point_in_rect_iff. destruct (point_in_rect x y rc); split;
    congruence.
Qed.

(** The loop started at index [i] answers [Some k] exactly when [k - i] is
    the position of the first containing monitor. *)
Lemma monitor_at_point_from_some (ms : list Monitor) :
  forall (i k : nat) (x y : Z),
    monitor_at_point_from i x y ms = Some k <->
    exists j m,
      k = (i + j)%nat /\ nth_error ms j = Some m /\ contains (rect m) x y /\
      (forall j' m', (j' < j)%nat -> nth_error ms j' = Some m' ->
                     ~ contains (rect m') x y).
Proof.
  induction ms as [|m0 rest IH]; intros i k x y; cbn [monitor_at_point_from].
  - split; [discriminate|].
    intros (j & m & _ & Hn & _). destruct j; discriminate.
  - destruct (point_in_rect x y (rect m0)) eqn:Hp.
    + apply point_in_rect_iff in Hp. split.
      * intros [= <-]. exists 0%nat, m0.
        split; [lia|]. split; [reflexivity|]. split; [exact Hp|].
        intros j' m' Hlt. lia.
      * intros (j & m & -> & Hn & Hc & Hfirst). destruct j as [|j].
        -- f_equal. lia.
        -- exfalso. apply (Hfirst 0%nat m0); [lia|reflexivity|exact Hp].
    + apply point_in_rect_false_iff in Hp. rewrite IH. split.
      * intros (j & m & -> & Hn & Hc & Hfirst).
        exists (S j), m.
        split; [lia|]. split; [exact Hn|]. split; [exact Hc|].
        intros [|j'] m' Hlt Hn'.
        -- cbn in Hn'. injection Hn' as <-. exact Hp.
        -- apply (Hfirst j' m'); [lia|exact Hn'].
      * intros (j & m & -> & Hn & Hc & Hfirst). destruct j as [|j].
        -- cbn in Hn. injection Hn as <-. contradiction.
        -- exists j, m.
           split; [lia|]. split; [exact Hn|]. split; [exact Hc|].
           intros j' m' Hlt Hn'. apply (Hfirst (S j') m'); [lia|exact Hn'].
Qed.

Lemma monitor_at_point_from_none (ms : list Monitor) :
  forall (i : nat) (x y : Z),
    monitor_at_point_from i x y ms = None <->
    (forall m, In m ms -> ~ contains (rect m) x y).
Proof.
  induction ms as [|m0 rest IH]; intros i x y; cbn [monitor_at_point_from].
  - split; [intros _ m []|reflexivity].
  - destruct (point_in_rect x y (rect m0)) eqn:Hp.
    + apply point_in_rect_iff in Hp. split; [discriminate|].
      intros H. exfalso. apply (H m0); [left; reflexivity|exact Hp].
    + apply point_in_rect_false_iff in Hp. rewrite IH. split.
      * intros H m [<-|Hin]; auto.
      * intros H m Hin. apply H. right. exact Hin.
Qed.

(** C5. [monitor_at_point] (the search loop of [get_cursor_monitor_idx] and
    [get_window_monitor_idx]) returns index [i] exactly when monitor [i]
    contains the point under half-open bounds and no earlier monitor of the
    enumeration does; it returns [None] exactly when no monitor contains the
    point; and a point on the right or bottom edge of monitor [i] is never
    attributed to monitor [i]. *)
Theorem monitor_at_point_first_match (x y : Z) (ms : list Monitor) :
  (forall i : nat,
      monitor_at_point x y ms = Some i <->
      exists m,
        nth_error ms i = Some m /\ contains (rect m) x y /\
        (forall j m', (j < i)%nat -> nth_error ms j = Some m' ->
                      ~ contains (rect m') x y)) /\
  (monitor_at_point x y ms = None <->
   forall m, In m ms -> ~ contains (rect m) x y) /\
  (forall (i : nat) (m : Monitor),
      nth_error ms i = Some m ->
      x = r_right (rect m) \/ y = r_bottom (rect m) ->
      monitor_at_point x y ms <> Some i).
Proof.
  unfold monitor_at_point. split; [|split].
  - intros i. rewrite monitor_at_point_from_some. split.
    + intros (j & m & -> & Hn & Hc & Hfirst). exists m. auto.
    + intros (m & Hn & Hc & Hfirst). exists i, m. auto.
  - apply monitor_at_point_from_none.
  - intros i m Hn Hedge Hres.
    apply monitor_at_point_from_some in Hres.
    destruct Hres as (j & m' & Hk & Hn' & Hc & _). cbn in Hk. subst j.
    rewrite Hn in Hn'. injection Hn' as <-.
    unfold contains in Hc. lia.
Qed.

(** On the two-monitor desktop of the specification's scenario, the point
    [(1920, 100)] lies on the right edge of monitor 0 and is attributed to
    monitor 1. *)
Lemma monitor_at_point_first_match_witness :
  monitor_at_point 1920 100 two_monitors = Some 1%nat /\
  monitor_at_point 1920 100 two_monitors <> Some 0%nat.
Proof.
  split.
  - reflexivity.
  - apply (proj2 (proj2 (monitor_at_point_first_match 1920 100 two_monitors))
             0%nat {| handle := 1; rect := (0, 0, 1920, 1080);
                      primary := true |}).
    + reflexivity.
    + left. reflexivity.
Defined.

(* ------------------------------------------------------------------ *)
(** ** Window classifier *)

(** One call of [cb] appends the window exactly when it is eligible. *)
Lemma cb_eligible (w : World) (mons : list Monitor) (idx : Z)
  (result : list HWND) (h : HWND) :
  cb w mons idx result h =
  if eligible_on w mons idx h then result ++ [h] else result.
Proof.
  unfold cb, eligible_on, is_real_window, is_visible, is_app_class,
    reserved_class, not_tool_window, centre_on, not_minimized,
    get_window_monitor_idx.
  destruct (IsWindowVisible w h) as [v|]; cbn; [|reflexivity].
  destruct (v =? 0); cbn; [reflexivity|].
  destruct (GetClassName w h) as [c|]; cbn; [|reflexivity].
  destruct (String.eqb c "Progman" || String.eqb c "Shell_TrayWnd"); cbn;
    [reflexivity|].
  destruct (GetWindowLong_EXSTYLE w h) as [ex|]; cbn; [|reflexivity].
  destruct (Z.land ex WS_EX_TOOLWINDOW =? 0); cbn; [|reflexivity].
  destruct (GetWindowRect w h) as [[[[l t] r] b]|]; cbn; [|reflexivity].
  destruct (idx_eq (monitor_at_point ((l + r) / 2) ((t + b) / 2) mons) idx);
    cbn; [|reflexivity].
  destruct (GetWindowPlacement w h) as [p|]; cbn; [|reflexivity].
  destruct (showCmd p =? SW_SHOWMINIMIZED); reflexivity.
Qed.

Lemma fold_cb_filter (w : World) (mons : list Monitor) (idx : Z)
  (hs : list HWND) :
  forall acc,
    fold_left (cb w mons idx) hs acc = acc ++ filter (eligible_on w mons idx) hs.
Proof.
  induction hs as [|h rest IH]; intros acc; cbn [fold_left filter].
  - now rewrite app_nil_r.
  - rewrite IH, cb_eligible.
    destruct (eligible_on w mons idx h).
    + now rewrite <- app_assoc.
    + reflexivity.
Qed.

Lemma enum_windows_filter (w : World) (mons : list Monitor) (idx : Z) :
  enum_windows_on_monitor w mons idx =
  filter (eligible_on w mons idx) (EnumWindows w).
Proof. unfold enum_windows_on_monitor. now rewrite fold_cb_filter. Qed.

Lemma minimized_not_eligible (w : World) (mons : list Monitor) (idx : Z)
  (h : HWND) :
  is_minimized w h = true -> eligible_on w mons idx h = false.
Proof.
  unfold is_minimized, eligible_on, not_minimized.
  destruct (GetWindowPlacement w h) as [p|]; [|discriminate].
  intros ->. cbn. now rewrite !andb_false_r.
Qed.

Lemma minimized_not_enumerated (w : World) (mons : list Monitor) (idx : Z)
  (h : HWND) :
  is_minimized w h = true -> ~ In h (enum_windows_on_monitor w mons idx).
Proof.
  intros Hmin Hin. rewrite enum_windows_filter in Hin.
  apply filter_In in Hin. destruct Hin as [_ He].
  rewrite (minimized_not_eligible w mons idx h Hmin) in He. discriminate.
Qed.

(* ------------------------------------------------------------------ *)
(** ** Toggle controller *)

Lemma minimized_by_minimize (hs : list HWND) :
  minimized_by (map (fun h => ShowWindow h SW_MINIMIZE) hs) = hs.
Proof. induction hs as [|h rest IH]; cbn; [reflexivity|now rewrite IH]. Qed.

Lemma restored_by_restore (hs : list HWND) :
  restored_by (map (fun h => ShowWindow h SW_RESTORE) hs) = hs.
Proof. induction hs as [|h rest IH]; cbn; [reflexivity|now rewrite IH]. Qed.

Lemma restored_by_minimize (hs : list HWND) :
  restored_by (map (fun h => ShowWindow h SW_MINIMIZE) hs) = [].
Proof. induction hs as [|h rest IH]; cbn; [reflexivity|exact IH]. Qed.

Lemma idx_eq_false_iff (m : option nat) (a : Z) :
  idx_eq m a = false <-> differs m a.
Proof.
  destruct m as [i|]; cbn.
  - apply Z.eqb_neq.
  - tauto.
Qed.

Lemma cursor_on_allowed_eq (self : Controller) (w : World) :
  cursor_on_allowed self w ->
  exists m, get_cursor_monitor_idx (monitors self) w = Some m /\
            idx_eq m (allowed self) = true.
Proof.
  intros (i & Hc & Hi). exists (Some i). split; [exact Hc|].
  cbn. now apply Z.eqb_eq.
Qed.

(** The Idle branch of a trigger whose cursor is on the allowed monitor. *)
Lemma toggle_idle (self : Controller) (w : World) :
  cursor_on_allowed self w -> toggled self = false ->
  toggle_desktop_single_monitor self w =
  ({| cfg := cfg self; monitors := monitors self; allowed := allowed self;
      toggled := true;
      minimized := enum_windows_on_monitor w (monitors self) (allowed self) |},
   map (fun h => ShowWindow h SW_MINIMIZE)
       (enum_windows_on_monitor w (monitors self) (allowed self)),
   Returned).
Proof.
  intros Hc Ht. apply cursor_on_allowed_eq in Hc. destruct Hc as (m & Hc & He).
  unfold toggle_desktop_single_monitor. rewrite Hc, He, Ht. reflexivity.
Qed.

(** The Minimized branch of a trigger whose cursor is on the allowed
    monitor. *)
Lemma toggle_minimized (self : Controller) (w : World) :
  cursor_on_allowed self w -> toggled self = true ->
  toggle_desktop_single_monitor self w =
  ({| cfg := cfg self; monitors := monitors self; allowed := allowed self;
      toggled := false; minimized := [] |},
   map (fun h => ShowWindow h SW_RESTORE) (rev (minimized self)),
   Returned).
Proof.
  intros Hc Ht. apply cursor_on_allowed_eq in Hc. destruct Hc as (m & Hc & He).
  unfold toggle_desktop_single_monitor. rewrite Hc, He, Ht. reflexivity.
Qed.

(** Whatever a trigger does, the windows it restores are those of the
    [minimized] list it started from. *)
Lemma toggle_restores_only_minimized (self : Controller) (w : World) (h : HWND) :
  In h (restored_by (snd (fst (toggle_desktop_single_monitor self w)))) ->
  In h (minimized self).
Proof.
  unfold toggle_desktop_single_monitor.
  destruct (get_cursor_monitor_idx (monitors self) w) as [m|]; cbn; [|tauto].
  destruct (idx_eq m (allowed self)); cbn; [|tauto].
  destruct (toggled self); cbn.
  - rewrite restored_by_restore. intros Hin. now apply in_rev.
  - rewrite restored_by_minimize. intros [].
Qed.

(** An operation that leaves the phase and the list alone keeps the
    invariant. *)
Lemma invariant_same_phase (self s' : Controller) (hist : list Event)
  (o : Op) (calls : list OsCall) :
  toggled s' = toggled self -> minimized s' = minimized self ->
  toggle_invariant self hist ->
  toggle_invariant s'
    ({| ev_pre := self; ev_op := o; ev_calls := calls; ev_post := s' |} :: hist).
Proof.
  intros Ht Hm [Hidle Hmin]. unfold toggle_invariant.
  rewrite Ht, Hm. split; [exact Hidle|].
  intros Htog. destruct (Hmin Htog) as (e & w & Hlast & Hrest).
  exists e, w. split; [|exact Hrest].
  unfold last_minimize_transition in *. cbn [find].
  unfold is_minimize_transition at 1. cbn. rewrite Ht, Htog. cbn. exact Hlast.
Qed.

Lemma step_preserves_invariant (self : Controller) (hist : list Event) (o : Op) :
  toggle_invariant self hist ->
  toggle_invariant (fst (step self o))
    ({| ev_pre := self; ev_op := o; ev_calls := snd (step self o);
        ev_post := fst (step self o) |} :: hist).
Proof.
  intros Hinv. destruct o as [w|idx d|w].
  - cbn [step]. unfold toggle_desktop_single_monitor.
    destruct (get_cursor_monitor_idx (monitors self) w) as [m|]; cbn;
      [|now apply invariant_same_phase].
    destruct (idx_eq m (allowed self)); cbn;
      [|now apply invariant_same_phase].
    destruct (toggled self) eqn:Ht; cbn.
    + split; cbn; [reflexivity|discriminate].
    + split; cbn; [discriminate|]. intros _.
      eexists; exists w. unfold last_minimize_transition. cbn [find].
      unfold is_minimize_transition. cbn. rewrite Ht. cbn.
      split; [reflexivity|]. split; [reflexivity|].
      split; [exact (eq_sym (minimized_by_minimize _))
             |exact (enum_windows_filter _ _ _)].
  - cbn [step]. unfold set_allowed.
    destruct (save_config d _) as [d' out]. cbn.
    now apply invariant_same_phase.
  - cbn [step fst snd]. now apply invariant_same_phase.
Qed.

Lemma run_from_invariant (ops : list Op) :
  forall (self : Controller) (hist : list Event),
    toggle_invariant self hist ->
    toggle_invariant (fst (run_from self hist ops)) (snd (run_from self hist ops)).
Proof.
  induction ops as [|o rest IH]; intros self hist Hinv; cbn [run_from].
  - exact Hinv.
  - pose proof (step_preserves_invariant self hist o Hinv) as Hstep.
    destruct (step self o) as [s' calls]. cbn [fst snd] in Hstep.
    now apply IH.
Qed.

Lemma init_invariant (d : Disk) (w0 : World) :
  toggle_invariant (Controller_init d w0) [].
Proof. split; cbn; [reflexivity|discriminate]. Qed.

(** C8. After initialisation and any sequence of [trigger()], [set_allowed]
    and [refresh_monitors] operations: if the phase is Idle the minimized
    list is empty, and if the phase is Minimized the list is exactly the
    sequence of windows minimized by the most recent Idle-to-Minimized
    transition, i.e. the eligible windows that trigger found, in
    enumeration order. *)
Theorem toggle_invariant_always (d : Disk) (w0 : World) (ops : list Op) :
  let self := fst (run d w0 ops) in
  let hist := snd (run d w0 ops) in
  (toggled self = false -> minimized self = []) /\
  (toggled self = true ->
   exists (e : Event) (w : World),
     last_minimize_transition hist = Some e /\
     ev_op e = OpTrigger w /\
     minimized self = minimized_by (ev_calls e) /\
     minimized self =
       filter (eligible_on w (monitors (ev_pre e)) (allowed (ev_pre e)))
              (EnumWindows w)).
Proof.
  exact (run_from_invariant ops _ _ (init_invariant d w0)).
Qed.

(** After a trigger, a change of the allowed monitor and a refresh, the
    controller is Minimized and holds windows 10 and 11. *)
Lemma toggle_invariant_always_witness :
  minimized (fst (run empty_disk desk
                    [OpTrigger desk; OpSetAllowed 1 empty_disk;
                     OpRefresh desk])) = [10; 11] /\
  exists (e : Event) (w : World),
    last_minimize_transition
      (snd (run empty_disk desk
              [OpTrigger desk; OpSetAllowed 1 empty_disk; OpRefresh desk]))
      = Some e /\
    ev_op e = OpTrigger w /\
    [10; 11] = minimized_by (ev_calls e).
Proof.
  split; [reflexivity|].
  destruct (proj2 (toggle_invariant_always empty_disk desk
                     [OpTrigger desk; OpSetAllowed 1 empty_disk;
                      OpRefresh desk]) eq_refl)
    as (e & w & Hlast & Hop & Hmin & _).
  exists e, w. split; [exact Hlast|]. split; [exact Hop|exact Hmin].
Defined.

(** C4. If the monitor under the cursor, as the registry computes it
    (an index or none), differs from the allowed monitor, [trigger()]
    returns with the whole controller state unchanged, hence the phase and
    the minimized list, and makes no OS minimize or restore call. *)
Theorem trigger_off_monitor_is_noop (self : Controller) (w : World)
  (cursor_m : option nat) :
  get_cursor_monitor_idx (monitors self) w = Some cursor_m ->
  differs cursor_m (allowed self) ->
  toggle_desktop_single_monitor self w = (self, [], Returned).
Proof.
  intros Hc Hd. apply idx_eq_false_iff in Hd.
  unfold toggle_desktop_single_monitor. now rewrite Hc, Hd.
Qed.

(** The specification's scenario: allowed monitor 0, cursor at
    [(2500, 100)] on monitor 1. *)
Lemma trigger_off_monitor_is_noop_witness :
  toggle_desktop_single_monitor (Controller_init empty_disk desk)
    desk_cursor_right
  = (Controller_init empty_disk desk, [], Returned).
Proof.
  apply (trigger_off_monitor_is_noop (Controller_init empty_disk desk)
           desk_cursor_right (Some 1%nat)).
  - reflexivity.
  - cbn. lia.
Defined.

(** C2. From a controller in phase Idle, two consecutive [trigger()] calls
    with the cursor on the allowed monitor: the first minimizes the eligible
    windows of the allowed monitor in enumeration order and records them,
    the second restores exactly those windows in the reverse order, and the
    controller is back to the state it had before the first call, with
    phase Idle and an empty minimized list.  The second call reads nothing
    of the desktop but the cursor position. *)
Theorem toggle_round_trip (d : Disk) (w0 : World) (ops : list Op)
  (w1 w2 : World) :
  let self := fst (run d w0 ops) in
  let wins :=
    filter (eligible_on w1 (monitors self) (allowed self)) (EnumWindows w1) in
  toggled self = false ->
  cursor_on_allowed self w1 ->
  cursor_on_allowed self w2 ->
  exists s1 : Controller,
    toggle_desktop_single_monitor self w1 =
      (s1, map (fun h => ShowWindow h SW_MINIMIZE) wins, Returned) /\
    toggled s1 = true /\
    minimized s1 = wins /\
    toggle_desktop_single_monitor s1 w2 =
      (self, map (fun h => ShowWindow h SW_RESTORE) (rev wins), Returned) /\
    toggled self = false /\
    minimized self = [].
Proof.
  intros self wins Ht Hc1 Hc2.
  pose proof (proj1 (run_from_invariant ops _ _ (init_invariant d w0)) Ht)
    as Hempty.
  fold (run d w0 ops) in Hempty. fold self in Hempty.
  pose (s1 := {| cfg := cfg self; monitors := monitors self;
                 allowed := allowed self; toggled := true;
                 minimized := wins |}).
  assert (Hc2' : cursor_on_allowed s1 w2) by exact Hc2.
  exists s1. split.
  - rewrite (toggle_idle self w1 Hc1 Ht), enum_windows_filter. reflexivity.
  - split; [reflexivity|]. split; [reflexivity|].
    split; [|split; assumption].
    rewrite (toggle_minimized s1 w2 Hc2' eq_refl).
    cbn [s1 cfg monitors allowed minimized]. f_equal. f_equal.
    destruct self as [c ms a t mn]. cbn in Ht, Hempty |- *. now subst.
Qed.

(** On the example desktop the first trigger minimizes windows 10 and 11,
    the second restores 11 then 10. *)
Lemma toggle_round_trip_witness :
  exists s1 : Controller,
    toggle_desktop_single_monitor (Controller_init empty_disk desk) desk =
      (s1, [ShowWindow 10 SW_MINIMIZE; ShowWindow 11 SW_MINIMIZE], Returned) /\
    toggle_desktop_single_monitor s1 desk =
      (Controller_init empty_disk desk,
       [ShowWindow 11 SW_RESTORE; ShowWindow 10 SW_RESTORE], Returned).
Proof.
  destruct (toggle_round_trip empty_disk desk [] desk desk) as
    (s1 & H1 & _ & _ & H2 & _).
  - reflexivity.
  - exists 0%nat. split; reflexivity.
  - exists 0%nat. split; reflexivity.
  - exists s1. split; [exact H1|exact H2].
Defined.

(** C6. [enum_windows_on_monitor] returns, in the OS enumeration order,
    exactly the top-level windows that are visible, not of a reserved shell
    class, without the tool-window style, centred on the given monitor and
    not minimized.  In particular a window that is already minimized when a
    trigger minimizes the others is not recorded in the minimized list and
    is not restored by the next trigger. *)
Theorem enum_windows_exact :
  (forall (w : World) (mons : list Monitor) (idx : Z),
      enum_windows_on_monitor w mons idx =
      filter (fun h => is_visible w h && is_app_class w h
                       && not_tool_window w h && centre_on w mons idx h
                       && not_minimized w h)
             (EnumWindows w)) /\
  (forall (self : Controller) (w w' : World) (h : HWND),
      toggled self = false ->
      cursor_on_allowed self w ->
      is_minimized w h = true ->
      let s1 := fst (fst (toggle_desktop_single_monitor self w)) in
      let calls2 := snd (fst (toggle_desktop_single_monitor s1 w')) in
      ~ In h (minimized s1) /\ ~ In h (restored_by calls2)).
Proof.
  split.
  - intros w mons idx. apply enum_windows_filter.
  - intros self w w' h Ht Hc Hmin s1 calls2.
    assert (Hs1 : ~ In h (minimized s1)).
    { subst s1. rewrite (toggle_idle self w Hc Ht). cbn [fst minimized].
      now apply minimized_not_enumerated. }
    split; [exact Hs1|].
    intros Hin. apply Hs1. subst calls2.
    now apply toggle_restores_only_minimized in Hin.
Qed.

(** On the example desktop window 13 is minimized beforehand: it is neither
    recorded nor restored. *)
Lemma enum_windows_exact_witness :
  enum_windows_on_monitor desk two_monitors 0 = [10; 11] /\
  ~ In 13 (restored_by
             (snd (fst (toggle_desktop_single_monitor
                          (fst (fst (toggle_desktop_single_monitor
                                       (Controller_init empty_disk desk) desk)))
                          desk)))).
Proof.
  split.
  - rewrite (proj1 enum_windows_exact). reflexivity.
  - apply (proj2 enum_windows_exact (Controller_init empty_disk desk)
             desk desk 13).
    + reflexivity.
    + exists 0%nat. split; reflexivity.
    + reflexivity.
Defined.

(* ------------------------------------------------------------------ *)
(** ** Changing the allowed monitor *)

(** C9, as the specification states it, at the example controller: read as
    "[set_allowed] leaves configuration storage as it found it", the
    statement fails, because [set_allowed 1] on an empty writable disk
    creates the configuration file. *)
Lemma set_allowed_writes_storage :
  snd (fst (set_allowed (Controller_init empty_disk desk) empty_disk 1))
  <> empty_disk /\
  config_file
    (snd (fst (set_allowed (Controller_init empty_disk desk) empty_disk 1)))
  = Parsed (Some 1) (Some false).
Proof. split; [discriminate|reflexivity]. Qed.

(** C9 (amended). [set_allowed idx] sets the allowed monitor to
    [max 0 idx], copies it into the in-memory configuration and itself
    writes that configuration to storage by calling [save_config], all of
    it while holding the controller's lock; the monitor snapshot, the
    phase, the minimized list and the [autostart] setting are unchanged.
    When the write succeeds the stored configuration is the in-memory
    one. *)
Theorem set_allowed_frame (self : Controller) (d : Disk) (idx : Z) :
  let self' := fst (fst (set_allowed self d idx)) in
  let d' := snd (fst (set_allowed self d idx)) in
  let out := snd (set_allowed self d idx) in
  let m := fold_left perform (set_allowed_accesses idx)
             {| m_ctrl := self; m_disk := d; m_lock_held := false;
                m_outcome := Returned |} in
  allowed self' = Z.max 0 idx /\
  allowed_monitor (cfg self') = Z.max 0 idx /\
  autostart (cfg self') = autostart (cfg self) /\
  monitors self' = monitors self /\
  toggled self' = toggled self /\
  minimized self' = minimized self /\
  (d', out) = save_config d (cfg self') /\
  (writable d = true ->
   out = Returned /\
   config_file d' = Parsed (Some (Z.max 0 idx)) (Some (autostart (cfg self))) /\
   load_config d' = cfg self') /\
  locked_throughout false (set_allowed_accesses idx) = true /\
  (m_ctrl m, m_disk m, m_outcome m) = set_allowed self d idx /\
  m_lock_held m = false.
Proof.
  unfold set_allowed. cbn [fold_left set_allowed_accesses perform m_outcome
    m_ctrl m_disk m_lock_held cfg monitors allowed toggled minimized
    allowed_monitor autostart locked_throughout negb andb].
  unfold save_config.
  destruct (writable d) eqn:Hw; [|destruct (fails_after_open d) eqn:Hf];
    cbn; repeat split; congruence.
Qed.

(** [set_allowed (-3)] on the example controller: monitor 0 is stored and
    read back; on the full disk the call raises with the lock released and
    the allowed index updated all the same. *)
Lemma set_allowed_frame_witness :
  load_config
    (snd (fst (set_allowed (Controller_init empty_disk desk) empty_disk (-3))))
  = {| allowed_monitor := 0; autostart := false |} /\
  m_lock_held
    (fold_left perform (set_allowed_accesses 2)
       {| m_ctrl := Controller_init full_disk desk; m_disk := full_disk;
          m_lock_held := false; m_outcome := Returned |}) = false.
Proof.
  split.
  - destruct (set_allowed_frame (Controller_init empty_disk desk) empty_disk
                (-3)) as (_ & _ & _ & _ & _ & _ & _ & Hw & _).
    destruct (Hw eq_refl) as (_ & _ & Hload).
    rewrite Hload. reflexivity.
  - exact (proj2 (proj2 (proj2 (proj2 (proj2 (proj2 (proj2 (proj2 (proj2
             (proj2 (set_allowed_frame (Controller_init full_disk desk)
                       full_disk 2))))))))))).
Defined.

Lemma step_allowed (self : Controller) (o : Op) :
  allowed (fst (step self o)) =
  match o with
  | OpSetAllowed idx _ => Z.max 0 idx
  | _ => allowed self
  end.
Proof.
  destruct o as [w|idx d|w]; cbn [step].
  - unfold toggle_desktop_single_monitor.
    destruct (get_cursor_monitor_idx (monitors self) w) as [m|];
      [|reflexivity].
    destruct (idx_eq m (allowed self)); [|reflexivity].
    destruct (toggled self); reflexivity.
  - unfold set_allowed. destruct (save_config d _). reflexivity.
  - reflexivity.
Qed.

Lemma run_from_allowed_nonneg (ops : list Op) :
  forall (self : Controller) (hist : list Event),
    0 <= allowed self -> 0 <= allowed (fst (run_from self hist ops)).
Proof.
  induction ops as [|o rest IH]; intros self hist Hnn; cbn [run_from].
  - exact Hnn.
  - pose proof (step_allowed self o) as Hs.
    destruct (step self o) as [s' calls]. cbn [fst] in Hs.
    apply IH. rewrite Hs. destruct o; lia.
Qed.

(** C10, as stated, at a concrete input: a controller initialised from a
    configuration file holding [-1] has a negative allowed index, and
    operations other than [set_allowed] keep it. *)
Lemma allowed_negative_after_init :
  allowed (fst (run negative_disk desk [OpTrigger desk; OpRefresh desk])) = -1
  /\ ~ (0 <= allowed (fst (run negative_disk desk
                             [OpTrigger desk; OpRefresh desk]))).
Proof. split; [reflexivity|]. cbn. lia. Qed.

(** C10 (amended). For every integer [idx], negative ones included,
    [set_allowed idx] stores [max 0 idx] instead of rejecting the input;
    hence the allowed index is non-negative after any sequence of
    operations that contains a [set_allowed], and every operation keeps a
    non-negative allowed index non-negative. *)
Theorem set_allowed_clamps :
  (forall (self : Controller) (d : Disk) (idx : Z),
      allowed (fst (fst (set_allowed self d idx))) = Z.max 0 idx) /\
  (forall (self : Controller) (hist : list Event) (ops : list Op)
          (idx : Z) (d : Disk),
      In (OpSetAllowed idx d) ops ->
      0 <= allowed (fst (run_from self hist ops))) /\
  (forall (self : Controller) (hist : list Event) (ops : list Op),
      0 <= allowed self -> 0 <= allowed (fst (run_from self hist ops))).
Proof.
  split; [|split].
  - intros self d idx. unfold set_allowed. destruct (save_config d _).
    reflexivity.
  - intros self hist ops. revert self hist.
    induction ops as [|o rest IH]; intros self hist idx d Hin; [destruct Hin|].
    cbn [run_from]. pose proof (step_allowed self o) as Hs.
    destruct (step self o) as [s' calls]. cbn [fst] in Hs.
    destruct Hin as [->|Hin].
    + apply run_from_allowed_nonneg. rewrite Hs. lia.
    + now apply (IH _ _ idx d).
  - intros self hist ops. apply run_from_allowed_nonneg.
Qed.

Lemma set_allowed_clamps_witness :
  0 <= allowed (fst (run negative_disk desk
                       [OpTrigger desk; OpSetAllowed (-5) negative_disk;
                        OpRefresh desk])).
Proof.
  apply (proj1 (proj2 set_allowed_clamps) _ _ _ (-5) negative_disk).
  right. left. reflexivity.
Defined.

(* ------------------------------------------------------------------ *)
(** ** Key-combination interceptor *)

(** Case analysis on every comparison a call goes through. *)
Ltac key_cases c :=
  destruct c as [n wp [vk sc fl tm ex]];
  unfold modifier_down, modifier_up, secondary_down, secondary_up in *;
  unfold processed, is_modifier, is_secondary, key_down, key_up,
    VK_LWIN, VK_RWIN, VK_D, WM_KEYDOWN, WM_KEYUP, WM_SYSKEYDOWN, WM_SYSKEYUP
    in *;
  cbn [nCode wParam lParam vkCode] in *;
  destruct (Z.leb_spec 0 n); destruct (Z.ltb_spec n 0); try lia;
  destruct (Z.eqb_spec vk 91); destruct (Z.eqb_spec vk 92);
  destruct (Z.eqb_spec vk 68); try lia;
  destruct (Z.eqb_spec wp 256); destruct (Z.eqb_spec wp 260);
  destruct (Z.eqb_spec wp 257); destruct (Z.eqb_spec wp 261); try lia;
  cbn in *.

Lemma up_is_not_down (c : HookCall) :
  secondary_up c = true -> secondary_down c = false.
Proof. key_cases c; congruence. Qed.

Lemma modifier_is_not_secondary (c : HookCall) :
  is_modifier c = true -> secondary_down c = false /\ secondary_up c = false.
Proof. key_cases c; intuition congruence. Qed.

Lemma not_secondary_no_edge (c : HookCall) :
  is_secondary c = false -> secondary_down c = false /\ secondary_up c = false.
Proof. key_cases c; intuition congruence. Qed.

(** The handle given to [CallNextHookEx] is not touched by the callback. *)
Lemma callback_hook (self : WinDHook) (c : HookCall) :
  hook (fst (_callback self (nCode c) (wParam c) (lParam c))) = hook self.
Proof.
  unfold _callback. destruct self as [hk th tid wd sp].
  key_cases c; destruct wd, sp; reflexivity.
Qed.

(** How one call moves the modifier flag. *)
Lemma callback_win_down (self : WinDHook) (c : HookCall) :
  _win_down (fst (_callback self (nCode c) (wParam c) (lParam c))) =
  if modifier_down c then true
  else if modifier_up c then false
  else _win_down self.
Proof.
  unfold _callback. destruct self as [hk th tid wd sp].
  key_cases c; destruct wd, sp; reflexivity.
Qed.

(** How one call moves the release flag. *)
Lemma callback_suppress_d_up (self : WinDHook) (c : HookCall) :
  _suppress_d_up (fst (_callback self (nCode c) (wParam c) (lParam c))) =
  if secondary_down c && _win_down self then true
  else if secondary_up c then false
  else _suppress_d_up self.
Proof.
  unfold _callback. destruct self as [hk th tid wd sp].
  key_cases c; destruct wd, sp; reflexivity.
Qed.

(** What one call answers. *)
Lemma callback_result (self : WinDHook) (c : HookCall) :
  snd (_callback self (nCode c) (wParam c) (lParam c)) =
  if secondary_down c && _win_down self then
    {| on_win_d_called := true; ret := Swallow |}
  else if secondary_up c && _suppress_d_up self then
    {| on_win_d_called := false; ret := Swallow |}
  else
    {| on_win_d_called := false;
       ret := CallNextHookEx (hook self) (nCode c) (wParam c) (lParam c) |}.
Proof.
  unfold _callback. destruct self as [hk th tid wd sp].
  key_cases c; destruct wd, sp; reflexivity.
Qed.

Lemma hook_after_app (l1 : list HookCall) :
  forall (self : WinDHook) (l2 : list HookCall),
    hook_after self (l1 ++ l2) = hook_after (hook_after self l1) l2.
Proof.
  induction l1 as [|c rest IH]; intros self l2; cbn; [reflexivity|apply IH].
Qed.

Lemma hook_after_snoc (self : WinDHook) (pre : list HookCall) (c : HookCall) :
  hook_after self (pre ++ [c]) =
  fst (_callback (hook_after self pre) (nCode c) (wParam c) (lParam c)).
Proof. now rewrite hook_after_app. Qed.

Lemma hook_after_hook (pre : list HookCall) :
  forall self, hook (hook_after self pre) = hook self.
Proof.
  induction pre as [|c rest IH]; intros self; cbn; [reflexivity|].
  now rewrite IH, callback_hook.
Qed.

Lemma modifier_held_snoc (pre : list HookCall) (c : HookCall) :
  modifier_held (pre ++ [c]) =
  if modifier_down c then true
  else if modifier_up c then false
  else modifier_held pre.
Proof.
  unfold modifier_held. rewrite rev_unit. cbn [last_modifier_edge].
  destruct (modifier_down c); [reflexivity|].
  destruct (modifier_up c); reflexivity.
Qed.

(** The modifier flag is the history's "modifier held". *)
Lemma win_down_tracks (self : WinDHook) (pre : list HookCall) :
  tracking_clear self ->
  _win_down (hook_after self pre) = modifier_held pre.
Proof.
  intros [Hw _]. induction pre as [|c pre IH] using rev_ind.
  - exact Hw.
  - now rewrite hook_after_snoc, callback_win_down, modifier_held_snoc, IH.
Qed.

(** Once set, the release flag stays until a release of D is processed. *)
Lemma suppress_d_up_kept (between : list HookCall) :
  forall self,
    _suppress_d_up self = true ->
    forallb (fun m => negb (secondary_up m)) between = true ->
    _suppress_d_up (hook_after self between) = true.
Proof.
  induction between as [|c rest IH]; intros self Hs Hall; cbn in *.
  - exact Hs.
  - apply andb_true_iff in Hall. destruct Hall as [Hc Hrest].
    apply IH; [|exact Hrest].
    rewrite callback_suppress_d_up, Hs.
    apply negb_true_iff in Hc. rewrite Hc.
    now destruct (secondary_down c && _win_down self).
Qed.

(** The release flag is set only by a detection not yet followed by a
    release of D. *)
Lemma suppress_d_up_origin (self : WinDHook) (pre : list HookCall) :
  tracking_clear self ->
  _suppress_d_up (hook_after self pre) = true ->
  exists before d between,
    pre = before ++ d :: between /\
    detection before d = true /\
    forallb (fun m => negb (secondary_up m)) between = true.
Proof.
  intros Hclear. induction pre as [|c pre IH] using rev_ind.
  - cbn. destruct Hclear as [_ Hs]. congruence.
  - rewrite hook_after_snoc, callback_suppress_d_up,
      (win_down_tracks self pre Hclear).
    fold (detection pre c).
    destruct (detection pre c) eqn:Hdet.
    + intros _. exists pre, c, []. auto.
    + destruct (secondary_up c) eqn:Hup; [discriminate|].
      intros Hs. destruct (IH Hs) as (before & d & between & -> & Hd & Hall).
      exists before, d, (between ++ [c]).
      split; [now rewrite <- app_assoc|]. split; [exact Hd|].
      rewrite forallb_app, Hall. cbn. now rewrite Hup.
Qed.

(** C1. Over every sequence of calls delivered to a hook whose tracking
    flags start clear, for a call [c] arriving after the calls [pre]:
    (1) a processed D-down while the modifier is held is swallowed (and
    fires the handler); (2) the first processed D-up after such a detection
    is swallowed; (3) every Win-key call is passed through; (4) every other
    call is passed through untouched, (5) in particular any key other than
    D and Win, whether or not the modifier is held.  A call is processed
    when its [nCode] is not negative. *)
Theorem callback_suppresses_exactly_the_pair (self : WinDHook) :
  tracking_clear self ->
  (forall pre c,
      detection pre c = true ->
      result_at self pre c = {| on_win_d_called := true; ret := Swallow |}) /\
  (forall before d between u,
      detection before d = true ->
      forallb (fun m => negb (secondary_up m)) between = true ->
      secondary_up u = true ->
      result_at self (before ++ d :: between) u =
      {| on_win_d_called := false; ret := Swallow |}) /\
  (forall pre c,
      is_modifier c = true ->
      passed_through self c (result_at self pre c)) /\
  (forall pre c,
      is_modifier c = false ->
      detection pre c = false ->
      ~ awaited_release pre c ->
      passed_through self c (result_at self pre c)) /\
  (forall pre c,
      is_modifier c = false ->
      is_secondary c = false ->
      passed_through self c (result_at self pre c)).
Proof.
  intros Hclear.
  assert (Hres : forall pre c,
             result_at self pre c =
             if detection pre c then
               {| on_win_d_called := true; ret := Swallow |}
             else if secondary_up c && _suppress_d_up (hook_after self pre) then
               {| on_win_d_called := false; ret := Swallow |}
             else
               {| on_win_d_called := false;
                  ret := CallNextHookEx (hook self) (nCode c) (wParam c)
                           (lParam c) |}).
  { intros pre c. unfold result_at, detection.
    now rewrite callback_result, (win_down_tracks self pre Hclear),
      hook_after_hook. }
  split; [|split; [|split; [|split]]].
  - intros pre c Hdet. now rewrite Hres, Hdet.
  - intros before d between u Hdet Hall Hup.
    rewrite Hres. unfold detection at 1.
    rewrite (up_is_not_down u Hup), Hup. cbn.
    replace (before ++ d :: between) with ((before ++ [d]) ++ between)
      by now rewrite <- app_assoc.
    rewrite hook_after_app, suppress_d_up_kept; [reflexivity| |exact Hall].
    rewrite hook_after_snoc, callback_suppress_d_up,
      (win_down_tracks self before Hclear).
    fold (detection before d). now rewrite Hdet.
  - intros pre c Hmod. unfold passed_through. rewrite Hres. unfold detection.
    destruct (modifier_is_not_secondary c Hmod) as [-> ->]. reflexivity.
  - intros pre c _ Hdet Hnot. unfold passed_through. rewrite Hres, Hdet.
    destruct (secondary_up c) eqn:Hup; [|reflexivity].
    destruct (_suppress_d_up (hook_after self pre)) eqn:Hs; [|reflexivity].
    exfalso. apply Hnot. split; [exact Hup|].
    now apply (suppress_d_up_origin self pre Hclear).
  - intros pre c _ Hsec. unfold passed_through. rewrite Hres. unfold detection.
    destruct (not_secondary_no_edge c Hsec) as [-> ->]. reflexivity.
Qed.

(** Win down, E down, E up, D down, D up, Win up: E passes while Win is
    held, D down and D up are swallowed, Win up passes. *)
Lemma callback_suppresses_exactly_the_pair_witness :
  result_at WinDHook_init [press VK_LWIN] (press VK_E) =
    {| on_win_d_called := false;
       ret := CallNextHookEx None 0 WM_KEYDOWN (key VK_E) |} /\
  result_at WinDHook_init [press VK_LWIN; press VK_E; release VK_E]
    (press VK_D) = {| on_win_d_called := true; ret := Swallow |} /\
  result_at WinDHook_init
    ([press VK_LWIN; press VK_E; release VK_E] ++ press VK_D :: [])
    (release VK_D) = {| on_win_d_called := false; ret := Swallow |} /\
  result_at WinDHook_init
    [press VK_LWIN; press VK_E; release VK_E; press VK_D; release VK_D]
    (release VK_LWIN) =
    {| on_win_d_called := false;
       ret := CallNextHookEx None 0 WM_KEYUP (key VK_LWIN) |}.
Proof.
  destruct (callback_suppresses_exactly_the_pair WinDHook_init
              (conj eq_refl eq_refl)) as (Hdown & Hup & Hmod & _ & Hother).
  split; [|split; [|split]].
  - apply (Hother [press VK_LWIN] (press VK_E)); reflexivity.
  - apply Hdown. reflexivity.
  - apply Hup; reflexivity.
  - apply (Hmod _ (release VK_LWIN)). reflexivity.
Defined.

(** C3, as the specification states it, at a concrete input: the sequence
    Win down, E down, E up, D down, D up, Win up contains no modifier-down
    immediately followed by a D-down, and yet the callback calls the handler
    and swallows events. *)
Lemma combo_fires_without_adjacency :
  adjacent_combo win_e_then_d = false /\
  triggers (hook_results WinDHook_init win_e_then_d) = true /\
  suppresses (hook_results WinDHook_init win_e_then_d) = true.
Proof. repeat split. Qed.

Lemma no_detection_passes (rest : list HookCall) :
  forall (self : WinDHook) (pre : list HookCall),
    tracking_clear self ->
    _suppress_d_up (hook_after self pre) = false ->
    detection_after pre rest = false ->
    triggers (hook_results (hook_after self pre) rest) = false /\
    suppresses (hook_results (hook_after self pre) rest) = false.
Proof.
  induction rest as [|c rest IH]; intros self pre Hclear Hs Hnone.
  - split; reflexivity.
  - cbn [detection_after] in Hnone. apply orb_false_iff in Hnone.
    destruct Hnone as [Hdet Hrest].
    assert (Hwd : secondary_down c && _win_down (hook_after self pre) = false).
    { rewrite (win_down_tracks self pre Hclear). exact Hdet. }
    pose proof (callback_result (hook_after self pre) c) as Hr.
    pose proof (callback_suppress_d_up (hook_after self pre) c) as Hf.
    rewrite Hwd, Hs in Hr, Hf. rewrite andb_false_r in Hr.
    assert (Hf' : _suppress_d_up (hook_after self (pre ++ [c])) = false).
    { rewrite hook_after_snoc, Hf. now destruct (secondary_up c). }
    destruct (IH self (pre ++ [c]) Hclear Hf' Hrest) as [Ht Hsup].
    rewrite hook_after_snoc in Ht, Hsup.
    cbn [hook_results].
    destruct (_callback (hook_after self pre) (nCode c) (wParam c) (lParam c))
      as [s' r].
    cbn [fst snd] in *. subst r.
    unfold triggers, suppresses in *. cbn [existsb on_win_d_called ret].
    now rewrite Ht, Hsup.
Qed.

(** C3 (amended). For every sequence of key events in which no processed
    D-down arrives while the modifier is held (its latest preceding edge is
    a press, however many other events lie in between), running the
    callback over the whole sequence, from clear tracking flags, never calls
    the handler and never swallows an event. *)
Theorem no_detection_no_effect (self : WinDHook) (calls : list HookCall) :
  tracking_clear self ->
  has_detection calls = false ->
  triggers (hook_results self calls) = false /\
  suppresses (hook_results self calls) = false.
Proof.
  intros Hclear Hnone.
  apply (no_detection_passes calls self [] Hclear); [apply Hclear|exact Hnone].
Qed.

Lemma no_detection_no_effect_witness :
  triggers (hook_results WinDHook_init d_without_win) = false /\
  suppresses (hook_results WinDHook_init d_without_win) = false.
Proof.
  apply (no_detection_no_effect WinDHook_init d_without_win).
  - split; reflexivity.
  - reflexivity.
Defined.

(* ------------------------------------------------------------------ *)
(** ** Starting the hook *)

(** Whatever the OS answers, [start] returns normally to its caller. *)
Lemma start_always_returns (self : WinDHook) (os : HookOS) :
  snd (fst (start self os)) = Returned.
Proof.
  unfold start. destruct (thread self) as [[|]|]; cbn; try reflexivity;
    destruct (run_thread _ os); reflexivity.
Qed.

(** A hook that cannot be installed makes the thread function raise. *)
Lemma run_thread_raises_without_hook (self : WinDHook) (os : HookOS) :
  truthy (SetWindowsHookExW os) = false ->
  snd (run_thread self os) = ThreadRaised "Failed to install keyboard hook".
Proof. intros H. unfold run_thread. cbn [hook]. now rewrite H. Qed.

(** C7, evaluated where [SetWindowsHookExW] returns NULL: [start] returns
    normally to its caller, and the [OSError] ends only the thread that
    [start] spawned. *)
Theorem start_returns_when_hook_fails :
  start WinDHook_init os_refusing_hook =
  ({| hook := None; thread := Some false; thread_id := Some 4242;
      _win_down := false; _suppress_d_up := false |},
   Returned,
   Some (ThreadRaised "Failed to install keyboard hook")).
Proof. reflexivity. Qed.

(* ================================================================== *)
(** * Further properties *)

(* ------------------------------------------------------------------ *)
(** ** The hook, counted *)

Lemma callback_calls_handler (self : WinDHook) (c : HookCall) :
  on_win_d_called (snd (_callback self (nCode c) (wParam c) (lParam c))) =
  secondary_down c && _win_down self.
Proof.
  rewrite callback_result.
  destruct (secondary_down c && _win_down self); [reflexivity|].
  destruct (secondary_up c && _suppress_d_up self); reflexivity.
Qed.

Lemma callback_swallows (self : WinDHook) (c : HookCall) :
  is_swallow (snd (_callback self (nCode c) (wParam c) (lParam c))) =
  (secondary_down c && _win_down self)
  || (secondary_up c && _suppress_d_up self).
Proof.
  rewrite callback_result. unfold is_swallow.
  destruct (secondary_down c && _win_down self); [reflexivity|].
  destruct (secondary_up c && _suppress_d_up self); reflexivity.
Qed.

Lemma hook_results_cons (self : WinDHook) (c : HookCall)
  (rest : list HookCall) :
  hook_results self (c :: rest) =
  snd (_callback self (nCode c) (wParam c) (lParam c))
  :: hook_results (fst (_callback self (nCode c) (wParam c) (lParam c))) rest.
Proof.
  cbn [hook_results].
  now destruct (_callback self (nCode c) (wParam c) (lParam c)).
Qed.

Lemma handler_calls_from (rest : list HookCall) :
  forall (self : WinDHook) (pre : list HookCall),
    tracking_clear self ->
    handler_calls (hook_results (hook_after self pre) rest) =
    count_detections pre rest.
Proof.
  induction rest as [|c rest IH]; intros self pre Hclear; [reflexivity|].
  rewrite hook_results_cons, <- hook_after_snoc.
  unfold handler_calls in *. cbn [filter count_detections].
  rewrite callback_calls_handler, (win_down_tracks self pre Hclear).
  fold (detection pre c). rewrite <- (IH self (pre ++ [c]) Hclear).
  now destruct (detection pre c).
Qed.

(** X1. From clear tracking flags the handler is called exactly once per
    processed D-down that arrives while the modifier is held: every such
    press fires, auto-repeats of D included, and nothing else does. *)
Theorem handler_called_once_per_detection (self : WinDHook)
  (calls : list HookCall) :
  tracking_clear self ->
  handler_calls (hook_results self calls) = count_detections [] calls.
Proof. intros Hclear. exact (handler_calls_from calls self [] Hclear). Qed.

(** Holding Win and letting D auto-repeat three times fires three times. *)
Lemma handler_called_once_per_detection_witness :
  handler_calls
    (hook_results WinDHook_init
       [press VK_LWIN; press VK_D; press VK_D; press VK_D; release VK_D;
        release VK_LWIN]) = 3%nat.
Proof.
  rewrite (handler_called_once_per_detection WinDHook_init).
  - reflexivity.
  - split; reflexivity.
Defined.

Lemma swallowed_from (rest : list HookCall) :
  forall (self : WinDHook) (pre : list HookCall),
    tracking_clear self ->
    (count_detections pre rest
     <= swallowed (hook_results (hook_after self pre) rest)
     <= 2 * count_detections pre rest
        + (if _suppress_d_up (hook_after self pre) then 1 else 0))%nat.
Proof.
  induction rest as [|c rest IH]; intros self pre Hclear.
  - cbn. destruct (_suppress_d_up (hook_after self pre)); lia.
  - rewrite hook_results_cons, <- hook_after_snoc.
    specialize (IH self (pre ++ [c]) Hclear).
    unfold swallowed in *. cbn [filter count_detections].
    rewrite callback_swallows.
    rewrite hook_after_snoc, callback_suppress_d_up, <- hook_after_snoc in IH.
    rewrite (win_down_tracks self pre Hclear) in *.
    fold (detection pre c) in *.
    destruct (detection pre c); cbn [orb] in *.
    + cbn [List.length]. lia.
    + destruct (secondary_up c); cbn [andb] in *.
      * destruct (_suppress_d_up (hook_after self pre)); cbn [List.length];
          lia.
      * destruct (_suppress_d_up (hook_after self pre)); lia.
Qed.

(** X2. From clear tracking flags the events swallowed over a whole
    sequence are the detections plus at most one release per detection:
    their number lies between the number of detections and twice that
    number. *)
Theorem swallowed_at_most_one_release_per_detection (self : WinDHook)
  (calls : list HookCall) :
  tracking_clear self ->
  (count_detections [] calls
   <= swallowed (hook_results self calls)
   <= 2 * count_detections [] calls)%nat.
Proof.
  intros Hclear. pose proof (swallowed_from calls self [] Hclear) as H.
  cbn [hook_after] in H. destruct Hclear as [_ Hs]. rewrite Hs in H. lia.
Qed.

(** Three auto-repeated presses of D and one release: four events are
    swallowed, not six. *)
Lemma swallowed_at_most_one_release_per_detection_witness :
  (3 <= swallowed
          (hook_results WinDHook_init
             [press VK_LWIN; press VK_D; press VK_D; press VK_D;
              release VK_D; release VK_D; release VK_LWIN]) <= 6)%nat.
Proof.
  exact (swallowed_at_most_one_release_per_detection WinDHook_init
           [press VK_LWIN; press VK_D; press VK_D; press VK_D;
            release VK_D; release VK_D; release VK_LWIN]
           (conj eq_refl eq_refl)).
Defined.

Lemma modifier_released_stays (between : list HookCall) :
  forall (pre : list HookCall) (c : HookCall),
    modifier_up c = true ->
    modifier_down c = false ->
    forallb (fun m => negb (modifier_down m)) between = true ->
    modifier_held (pre ++ c :: between) = false.
Proof.
  induction between as [|m between IH] using rev_ind; intros pre c Hup Hnd Hall.
  - rewrite modifier_held_snoc.
    now rewrite Hnd, Hup.
  - rewrite forallb_app in Hall. apply andb_true_iff in Hall.
    destruct Hall as [Hall Hm]. cbn in Hm. rewrite andb_true_r in Hm.
    apply negb_true_iff in Hm.
    replace (pre ++ c :: between ++ [m]) with ((pre ++ c :: between) ++ [m])
      by now rewrite <- app_assoc.
    rewrite modifier_held_snoc, Hm.
    destruct (modifier_up m); [reflexivity|].
    now apply IH.
Qed.

Lemma modifier_up_not_down (c : HookCall) :
  modifier_up c = true -> modifier_down c = false.
Proof. key_cases c; congruence. Qed.

Lemma down_is_not_up (c : HookCall) :
  secondary_down c = true -> secondary_up c = false.
Proof. key_cases c; congruence. Qed.

(** X3. The two Win keys share one flag: once a release of either Win key
    is processed, and until some Win key goes down again, a press of D is
    passed through and the handler is not called, whatever was pressed
    before, the other Win key included. *)
Theorem either_win_release_ends_hold (self : WinDHook)
  (pre between : list HookCall) (c d : HookCall) :
  tracking_clear self ->
  modifier_up c = true ->
  forallb (fun m => negb (modifier_down m)) between = true ->
  secondary_down d = true ->
  passed_through self d (result_at self (pre ++ c :: between) d).
Proof.
  intros Hclear Hup Hall Hd. unfold passed_through, result_at.
  rewrite callback_result, (win_down_tracks self _ Hclear), hook_after_hook.
  rewrite (modifier_released_stays between pre c Hup
             (modifier_up_not_down c Hup) Hall).
  now rewrite andb_false_r, (down_is_not_up d Hd).
Qed.

(** Left Win down, right Win down, right Win up: D now passes through
    although the left Win key was never released. *)
Lemma either_win_release_ends_hold_witness :
  result_at WinDHook_init
    ([press VK_LWIN; press VK_RWIN] ++ release VK_RWIN :: []) (press VK_D)
  = {| on_win_d_called := false;
       ret := CallNextHookEx None 0 WM_KEYDOWN (key VK_D) |}.
Proof.
  apply (either_win_release_ends_hold WinDHook_init
           [press VK_LWIN; press VK_RWIN] [] (release VK_RWIN) (press VK_D)).
  - split; reflexivity.
  - reflexivity.
  - reflexivity.
  - reflexivity.
Defined.

(* ------------------------------------------------------------------ *)
(** ** The application as a run of the controller *)

Lemma all_calls_cons (e : Event) (hist : list Event) :
  all_calls (e :: hist) = all_calls hist ++ ev_calls e.
Proof.
  unfold all_calls. cbn [rev]. rewrite map_app, concat_app. cbn.
  now rewrite app_nil_r.
Qed.

Lemma run_from_all_calls (ops : list Op) :
  forall (self : Controller) (hist : list Event),
    all_calls (snd (run_from self hist ops)) =
    all_calls hist ++ all_calls (snd (run_from self [] ops)).
Proof.
  induction ops as [|o rest IH]; intros self hist; cbn [run_from].
  - cbn. now rewrite app_nil_r.
  - destruct (step self o) as [s' calls].
    rewrite (IH s' (_ :: hist)), (IH s' [_]), !all_calls_cons.
    cbn [ev_calls]. unfold all_calls at 3. cbn. now rewrite <- app_assoc.
Qed.

Lemma run_from_state_hist (ops : list Op) :
  forall (self : Controller) (hist hist' : list Event),
    fst (run_from self hist ops) = fst (run_from self hist' ops).
Proof.
  induction ops as [|o rest IH]; intros self hist hist'; cbn [run_from].
  - reflexivity.
  - destruct (step self o) as [s' calls]. apply IH.
Qed.

Lemma deliver_all_refines (traffic : list (HookCall * World)) :
  forall (self0 : WinDHook) (pre : list HookCall) (ctrl : Controller),
    tracking_clear self0 ->
    let a := {| app_hook := hook_after self0 pre; app_ctrl := ctrl |} in
    app_ctrl (fst (deliver_all a traffic)) =
      fst (run_from ctrl [] (trigger_ops pre traffic)) /\
    snd (deliver_all a traffic) =
      all_calls (snd (run_from ctrl [] (trigger_ops pre traffic))).
Proof.
  induction traffic as [|[c w] rest IH]; intros self0 pre ctrl Hclear a.
  - split; reflexivity.
  - cbn [deliver_all trigger_ops]. unfold deliver. subst a.
    cbn [app_hook app_ctrl].
    pose proof (callback_calls_handler (hook_after self0 pre) c) as Hcall.
    rewrite (win_down_tracks self0 pre Hclear) in Hcall.
    fold (detection pre c) in Hcall.
    pose proof (hook_after_snoc self0 pre c) as Hsnoc.
    destruct (_callback (hook_after self0 pre) (nCode c) (wParam c) (lParam c))
      as [h' r].
    cbn [fst snd] in Hcall, Hsnoc. rewrite Hcall. subst h'.
    destruct (detection pre c).
    + cbn [run_from step].
      destruct (toggle_desktop_single_monitor ctrl w) as [[ctrl' calls] out].
      destruct (IH self0 (pre ++ [c]) ctrl' Hclear) as [Hc Hcalls].
      cbn zeta in Hc, Hcalls.
      destruct (deliver_all _ rest) as [a'' calls'].
      cbn [fst snd] in *. split.
      * rewrite Hc. apply run_from_state_hist.
      * rewrite Hcalls.
        rewrite (run_from_all_calls (trigger_ops (pre ++ [c]) rest) ctrl' [_]).
        rewrite all_calls_cons. reflexivity.
    + destruct (IH self0 (pre ++ [c]) ctrl Hclear) as [Hc Hcalls].
      cbn zeta in Hc, Hcalls.
      destruct (deliver_all _ rest) as [a'' calls'].
      cbn [fst snd] in *. split; assumption.
Qed.

(** X4. With the hook wired to the controller as [run_app] does, a whole key
    traffic acts on the controller and on the OS exactly as the sequence of
    triggers it contains, one per processed D-down arriving while the
    modifier is held, each on the desktop of its moment: same final
    controller, same [ShowWindow] calls in the same order. *)
Theorem key_traffic_is_a_run_of_triggers (a : App)
  (traffic : list (HookCall * World)) :
  tracking_clear (app_hook a) ->
  app_ctrl (fst (deliver_all a traffic)) =
    fst (run_from (app_ctrl a) [] (trigger_ops [] traffic)) /\
  snd (deliver_all a traffic) =
    all_calls (snd (run_from (app_ctrl a) [] (trigger_ops [] traffic))).
Proof.
  intros Hclear. destruct a as [h ctrl].
  exact (deliver_all_refines traffic h [] ctrl Hclear).
Qed.

(** Win+D, then Win+D again on the example desktop: windows 10 and 11 are
    minimized, then restored in reverse. *)
Lemma key_traffic_is_a_run_of_triggers_witness :
  snd (deliver_all
         {| app_hook := WinDHook_init;
            app_ctrl := Controller_init empty_disk desk |}
         [(press VK_LWIN, desk); (press VK_D, desk); (release VK_D, desk);
          (press VK_D, desk); (release VK_D, desk);
          (release VK_LWIN, desk)])
  = [ShowWindow 10 SW_MINIMIZE; ShowWindow 11 SW_MINIMIZE;
     ShowWindow 11 SW_RESTORE; ShowWindow 10 SW_RESTORE].
Proof.
  rewrite (proj2 (key_traffic_is_a_run_of_triggers
                    {| app_hook := WinDHook_init;
                       app_ctrl := Controller_init empty_disk desk |}
                    _ (conj eq_refl eq_refl))).
  reflexivity.
Defined.

(* ------------------------------------------------------------------ *)
(** ** More on the controller *)

Lemma step_cfg_mirror (self : Controller) (o : Op) :
  allowed_monitor (cfg self) = allowed self ->
  allowed_monitor (cfg (fst (step self o))) = allowed (fst (step self o)).
Proof.
  intros Hm. destruct o as [w|idx d|w]; cbn [step].
  - unfold toggle_desktop_single_monitor.
    destruct (get_cursor_monitor_idx (monitors self) w) as [m|]; [|exact Hm].
    destruct (idx_eq m (allowed self)); [|exact Hm].
    destruct (toggled self); exact Hm.
  - unfold set_allowed. destruct (save_config d _). reflexivity.
  - exact Hm.
Qed.

Lemma run_from_cfg_mirror (ops : list Op) :
  forall (self : Controller) (hist : list Event),
    allowed_monitor (cfg self) = allowed self ->
    allowed_monitor (cfg (fst (run_from self hist ops))) =
    allowed (fst (run_from self hist ops)).
Proof.
  induction ops as [|o rest IH]; intros self hist Hm; cbn [run_from].
  - exact Hm.
  - pose proof (step_cfg_mirror self o Hm) as Hs.
    destruct (step self o) as [s' calls]. now apply IH.
Qed.

(** X5. After initialisation and any sequence of operations, the
    [allowed_monitor] entry of the controller's in-memory configuration
    equals the allowed index the trigger compares against, so whatever is
    saved from that configuration is the selection in force. *)
Theorem cfg_mirrors_allowed (d : Disk) (w0 : World) (ops : list Op) :
  allowed_monitor (cfg (fst (run d w0 ops))) = allowed (fst (run d w0 ops)).
Proof. apply run_from_cfg_mirror. reflexivity. Qed.

Lemma step_restores (self : Controller) (o : Op) :
  restored_by (snd (step self o)) = [] \/
  (toggled self = true /\
   restored_by (snd (step self o)) = rev (minimized self)).
Proof.
  destruct o as [w|idx d|w]; cbn [step].
  - unfold toggle_desktop_single_monitor.
    destruct (get_cursor_monitor_idx (monitors self) w) as [m|]; [|now left].
    destruct (idx_eq m (allowed self)); [|now left].
    destruct (toggled self); cbn [snd].
    + right. split; [reflexivity|apply restored_by_restore].
    + left. apply restored_by_minimize.
  - unfold set_allowed. destruct (save_config d _). now left.
  - now left.
Qed.

Lemma run_from_restores_paired (ops : list Op) :
  forall (self : Controller) (hist : list Event),
    toggle_invariant self hist ->
    restores_paired hist ->
    restores_paired (snd (run_from self hist ops)).
Proof.
  induction ops as [|o rest IH]; intros self hist Hinv Hp; cbn [run_from].
  - exact Hp.
  - pose proof (step_preserves_invariant self hist o Hinv) as Hinv'.
    pose proof (step_restores self o) as Hr.
    destruct (step self o) as [s' calls]. cbn [fst snd] in Hinv', Hr.
    apply IH; [exact Hinv'|].
    cbn [restores_paired ev_calls]. split; [|exact Hp].
    destruct Hr as [Hr|[Ht Hr]]; [now left|right].
    destruct (proj2 Hinv Ht) as (e0 & w & Hlast & _ & Hmin & _).
    exists e0. split; [exact Hlast|]. now rewrite Hr, Hmin.
Qed.

(** X6. The controller never restores a window it did not minimize: over
    any sequence of operations, every batch of [SW_RESTORE] calls is the
    exact reverse of the [SW_MINIMIZE] batch issued by the latest
    Idle-to-Minimized trigger before it. *)
Theorem restores_only_what_it_minimized (d : Disk) (w0 : World)
  (ops : list Op) :
  restores_paired (snd (run d w0 ops)).
Proof.
  apply run_from_restores_paired; [apply init_invariant|exact I].
Qed.

(** X7. A trigger that finds no eligible window still flips the phase to
    Minimized; the next trigger then only flips it back and makes no OS
    call, whatever windows the desktop holds by then. *)
Theorem empty_minimize_still_toggles (self : Controller) (w1 w2 : World) :
  toggled self = false ->
  cursor_on_allowed self w1 ->
  cursor_on_allowed self w2 ->
  (forall h, In h (EnumWindows w1) ->
             eligible_on w1 (monitors self) (allowed self) h = false) ->
  let s1 := fst (fst (toggle_desktop_single_monitor self w1)) in
  toggled s1 = true /\
  snd (fst (toggle_desktop_single_monitor self w1)) = [] /\
  snd (fst (toggle_desktop_single_monitor s1 w2)) = [] /\
  toggled (fst (fst (toggle_desktop_single_monitor s1 w2))) = false.
Proof.
  intros Ht Hc1 Hc2 Hnone s1.
  assert (Hempty :
            enum_windows_on_monitor w1 (monitors self) (allowed self) = []).
  { rewrite enum_windows_filter.
    induction (EnumWindows w1) as [|h hs IH]; [reflexivity|].
    cbn [filter]. rewrite (Hnone h (or_introl eq_refl)).
    apply IH. intros h' Hin. apply Hnone. now right. }
  subst s1. rewrite (toggle_idle self w1 Hc1 Ht), Hempty. cbn [fst snd map].
  split; [reflexivity|]. split; [reflexivity|].
  rewrite toggle_minimized; [|exact Hc2|reflexivity].
  split; reflexivity.
Qed.

(** The example desktop with no top-level window at all, and the same
    desktop populated at the second trigger. *)
Lemma empty_minimize_still_toggles_witness :
  snd (fst (toggle_desktop_single_monitor
              (fst (fst (toggle_desktop_single_monitor
                           (Controller_init empty_disk desk) bare_desk)))
              desk)) = [].
Proof.
  apply (empty_minimize_still_toggles (Controller_init empty_disk desk)
           bare_desk desk).
  - reflexivity.
  - exists 0%nat. split; reflexivity.
  - exists 0%nat. split; reflexivity.
  - intros h [].
Defined.

(** X8. Changing the allowed monitor while windows are minimized does not
    lose them: the next trigger whose cursor is on the newly allowed monitor
    restores the recorded windows, in reverse, without looking at where they
    are, and returns to Idle. *)
Theorem set_allowed_keeps_pending_restore (self : Controller) (d : Disk)
  (idx : Z) (w : World) :
  let self' := fst (fst (set_allowed self d idx)) in
  toggled self = true ->
  cursor_on_allowed self' w ->
  snd (fst (toggle_desktop_single_monitor self' w)) =
    map (fun h => ShowWindow h SW_RESTORE) (rev (minimized self)) /\
  toggled (fst (fst (toggle_desktop_single_monitor self' w))) = false /\
  minimized (fst (fst (toggle_desktop_single_monitor self' w))) = [].
Proof.
  intros self' Ht Hc.
  assert (Ht' : toggled self' = true).
  { subst self'. unfold set_allowed. now destruct (save_config d _). }
  assert (Hm : minimized self' = minimized self).
  { subst self'. unfold set_allowed. now destruct (save_config d _). }
  rewrite (toggle_minimized self' w Hc Ht'), Hm. repeat split.
Qed.

(** Windows 10 and 11 minimized on monitor 0, then monitor 1 allowed, then
    a trigger with the cursor on monitor 1. *)
Lemma set_allowed_keeps_pending_restore_witness :
  snd (fst (toggle_desktop_single_monitor
              (fst (fst (set_allowed
                           (fst (fst (toggle_desktop_single_monitor
                                        (Controller_init empty_disk desk)
                                        desk)))
                           empty_disk 1)))
              desk_cursor_right))
  = [ShowWindow 11 SW_RESTORE; ShowWindow 10 SW_RESTORE].
Proof.
  apply (set_allowed_keeps_pending_restore
           (fst (fst (toggle_desktop_single_monitor
                        (Controller_init empty_disk desk) desk)))
           empty_disk 1 desk_cursor_right).
  - reflexivity.
  - exists 1%nat. split; reflexivity.
Defined.

(** X9. A trigger minimizes only eligible windows of the monitor the cursor
    is on: a [SW_MINIMIZE] call on [h] means that the controller was Idle,
    the cursor was on the allowed monitor, and [h] was enumerated, visible,
    not a shell window, not a tool window, centred on that monitor and not
    already minimized. *)
Theorem minimizes_only_eligible (self : Controller) (w : World) (h : HWND) :
  In (ShowWindow h SW_MINIMIZE)
     (snd (fst (toggle_desktop_single_monitor self w))) ->
  toggled self = false /\
  cursor_on_allowed self w /\
  In h (EnumWindows w) /\
  is_visible w h = true /\ is_app_class w h = true /\
  not_tool_window w h = true /\
  centre_on w (monitors self) (allowed self) h = true /\
  not_minimized w h = true.
Proof.
  unfold toggle_desktop_single_monitor, cursor_on_allowed.
  destruct (get_cursor_monitor_idx (monitors self) w) as [m|]; [|intros []].
  destruct (idx_eq m (allowed self)) eqn:He; cbn [negb]; [|intros []].
  destruct (toggled self); cbn [negb fst snd].
  - intros Hin. apply in_map_iff in Hin. destruct Hin as (h' & Heq & _).
    discriminate.
  - intros Hin. apply in_map_iff in Hin. destruct Hin as (h' & Heq & Hin).
    injection Heq as ->. rewrite enum_windows_filter in Hin.
    apply filter_In in Hin. destruct Hin as [Hin Hel].
    unfold eligible_on in Hel. rewrite !andb_true_iff in Hel.
    destruct Hel as [[[[Hv Hc] Ht] Hce] Hnm].
    split; [reflexivity|]. split.
    + destruct m as [i|]; [|discriminate]. exists i. split; [reflexivity|].
      now apply Z.eqb_eq.
    + repeat split; assumption.
Qed.

Lemma minimizes_only_eligible_witness :
  is_app_class desk 10 = true /\ centre_on desk two_monitors 0 10 = true.
Proof.
  destruct (minimizes_only_eligible (Controller_init empty_disk desk) desk 10)
    as (_ & _ & _ & _ & Hc & _ & Hce & _).
  - left. reflexivity.
  - split; [exact Hc|exact Hce].
Defined.

Lemma NoDup_show_calls (cmd : Z) (hs : list HWND) :
  NoDup hs -> NoDup (map (fun h => ShowWindow h cmd) hs).
Proof.
  induction 1 as [|h hs Hnin Hnd IH]; cbn; constructor; [|exact IH].
  intros Hin. apply in_map_iff in Hin. destruct Hin as (h' & Heq & Hin).
  injection Heq as ->. contradiction.
Qed.

(** X10. When the OS enumerates each top-level window once, a trigger makes
    at most one call per window. *)
Theorem one_call_per_window (self : Controller) (w : World) :
  NoDup (EnumWindows w) ->
  toggled self = false ->
  NoDup (snd (fst (toggle_desktop_single_monitor self w))).
Proof.
  intros Hnd Ht. unfold toggle_desktop_single_monitor.
  destruct (get_cursor_monitor_idx (monitors self) w) as [m|];
    [|constructor].
  destruct (idx_eq m (allowed self)); cbn [negb]; [|constructor].
  rewrite Ht. cbn [negb fst snd].
  rewrite enum_windows_filter.
  apply NoDup_show_calls. now apply NoDup_filter.
Qed.

Lemma one_call_per_window_witness :
  NoDup (snd (fst (toggle_desktop_single_monitor
                     (Controller_init empty_disk desk) desk))).
Proof.
  apply (one_call_per_window (Controller_init empty_disk desk) desk).
  - repeat constructor; cbn; lia.
  - reflexivity.
Defined.

(* ------------------------------------------------------------------ *)
(** ** More on monitors and window centres *)

(** X11. When the monitor rectangles do not overlap, the enumeration order
    plays no part: a point is attributed to monitor [i] as soon as monitor
    [i] contains it. *)
Theorem disjoint_monitors_unique (mons : list Monitor) (i : nat)
  (m : Monitor) (x y : Z) :
  disjoint_monitors mons ->
  nth_error mons i = Some m ->
  contains (rect m) x y ->
  monitor_at_point x y mons = Some i.
Proof.
  intros Hdis Hn Hc. unfold monitor_at_point.
  apply monitor_at_point_from_some. exists i, m.
  split; [reflexivity|]. split; [exact Hn|]. split; [exact Hc|].
  intros j m' Hlt Hn' Hc'.
  pose proof (Hdis i j m m' x y Hn Hn' Hc Hc'). lia.
Qed.

Lemma two_monitors_disjoint : disjoint_monitors two_monitors.
Proof.
  intros i j mi mj x y Hi Hj Hci Hcj.
  destruct i as [|[|i]]; destruct j as [|[|j]]; cbn in Hi, Hj;
    try reflexivity;
    try (destruct i; discriminate); try (destruct j; discriminate);
    injection Hi as <-; injection Hj as <-;
    unfold contains in *; cbn in *; lia.
Qed.

Lemma disjoint_monitors_unique_witness :
  monitor_at_point 2500 100 two_monitors = Some 1%nat.
Proof.
  apply (disjoint_monitors_unique two_monitors 1
           {| handle := 2; rect := (1920, 0, 3840, 1080); primary := false |}).
  - exact two_monitors_disjoint.
  - reflexivity.
  - unfold contains. cbn. lia.
Defined.

(** X12. A window with a non-empty rectangle lying within monitor [i], on a
    desktop whose monitors do not overlap, is attributed to monitor [i]:
    the floor-divided centre never leaves the window's rectangle. *)
Theorem window_within_monitor (w : World) (mons : list Monitor) (h : HWND)
  (rc : Rect) (i : nat) (m : Monitor) :
  disjoint_monitors mons ->
  nth_error mons i = Some m ->
  GetWindowRect w h = Some rc ->
  r_left rc < r_right rc ->
  r_top rc < r_bottom rc ->
  rect_within rc (rect m) ->
  get_window_monitor_idx w mons h = Some i.
Proof.
  intros Hdis Hn Hrect Hx Hy Hin. unfold get_window_monitor_idx.
  rewrite Hrect. destruct rc as [[[l t] r] b]. cbn in Hx, Hy.
  assert (Hc : contains (rect m) ((l + r) / 2) ((t + b) / 2)).
  { unfold rect_within in Hin. unfold contains. cbn in Hin.
    assert (l <= (l + r) / 2 < r) by (split;
      [apply Z.div_le_lower_bound|apply Z.div_lt_upper_bound]; lia).
    assert (t <= (t + b) / 2 < b) by (split;
      [apply Z.div_le_lower_bound|apply Z.div_lt_upper_bound]; lia).
    lia. }
  unfold monitor_at_point. apply monitor_at_point_from_some. exists i, m.
  split; [reflexivity|]. split; [exact Hn|]. split; [exact Hc|].
  intros j m' Hlt Hn' Hc'.
  pose proof (Hdis i j m m' _ _ Hn Hn' Hc Hc'). lia.
Qed.

(** Window 12 of the example desktop, at [(2000, 100, 2800, 700)], lies
    within the right monitor. *)
Lemma window_within_monitor_witness :
  get_window_monitor_idx desk two_monitors 12 = Some 1%nat.
Proof.
  apply (window_within_monitor desk two_monitors 12 (2000, 100, 2800, 700) 1
           {| handle := 2; rect := (1920, 0, 3840, 1080); primary := false |}).
  - exact two_monitors_disjoint.
  - reflexivity.
  - reflexivity.
  - cbn. lia.
  - cbn. lia.
  - unfold rect_within. cbn. lia.
Defined.

(* ------------------------------------------------------------------ *)
(** ** Configuration round trips *)

Lemma load_saved (d : Disk) (c : Config) :
  snd (save_config d c) = Returned ->
  load_config (fst (save_config d c)) = c.
Proof.
  unfold save_config. destruct (writable d).
  - intros _. now destruct c.
  - destruct (fails_after_open d); discriminate.
Qed.

(** X13. What a returning [save_config] wrote, [load_config] reads back
    unchanged.  After a [save_config] that raised, [load_config] reads
    either what it read before, when the failure came before the file was
    opened, or the defaults, when the file had been opened and so emptied:
    a failed save can lose the stored configuration, and never leaves a
    partial one to be read. *)
Theorem save_then_load (d : Disk) (c : Config) :
  (snd (save_config d c) = Returned ->
   load_config (fst (save_config d c)) = c) /\
  (snd (save_config d c) = Raised ->
   fails_after_open d = false ->
   fst (save_config d c) = d) /\
  (snd (save_config d c) = Raised ->
   fails_after_open d = true ->
   load_config (fst (save_config d c)) = default_config).
Proof.
  unfold save_config.
  destruct (writable d); [|destruct (fails_after_open d)]; cbn;
    repeat split; intros; try discriminate; try reflexivity.
  now destruct c.
Qed.

(** On the full disk, which held monitor 1 with autostart on, a failed save
    leaves the defaults to be read. *)
Lemma save_then_load_witness :
  load_config full_disk = {| allowed_monitor := 1; autostart := true |} /\
  load_config
    (fst (save_config full_disk {| allowed_monitor := 0; autostart := true |}))
  = {| allowed_monitor := 0; autostart := false |}.
Proof.
  split; [reflexivity|].
  apply (proj2 (proj2 (save_then_load full_disk
                         {| allowed_monitor := 0; autostart := true |})));
    reflexivity.
Defined.

(** X14. The selection survives a restart, the toggle does not: a
    controller created from the storage a successful [set_allowed idx] left
    has allowed index [max 0 idx] and the same configuration, and starts
    Idle with an empty minimized list even if the previous controller was
    Minimized. *)
Theorem selection_survives_restart (self : Controller) (d : Disk) (idx : Z)
  (w : World) :
  writable d = true ->
  let self' := fst (fst (set_allowed self d idx)) in
  let restarted := Controller_init (snd (fst (set_allowed self d idx))) w in
  allowed restarted = Z.max 0 idx /\
  cfg restarted = cfg self' /\
  toggled restarted = false /\
  minimized restarted = [].
Proof.
  intros Hw. unfold set_allowed, save_config. rewrite Hw. cbn.
  repeat split.
Qed.

Lemma selection_survives_restart_witness :
  allowed
    (Controller_init
       (snd (fst (set_allowed
                    (fst (fst (toggle_desktop_single_monitor
                                 (Controller_init empty_disk desk) desk)))
                    empty_disk 1)))
       desk) = 1.
Proof.
  apply (selection_survives_restart
           (fst (fst (toggle_desktop_single_monitor
                        (Controller_init empty_disk desk) desk)))
           empty_disk 1 desk).
  reflexivity.
Defined.

(* ------------------------------------------------------------------ *)
(** ** Life cycle of the hook thread *)

(** X15. After [start] spawned a thread, the hook object holds an installed
    hook handle exactly while that thread is alive: a thread that raised or
    left its message loop leaves no handle behind. *)
Theorem hook_held_iff_thread_alive (self : WinDHook) (os : HookOS)
  (out : ThreadOutcome) :
  snd (start self os) = Some out ->
  truthy (hook (fst (fst (start self os)))) = still_alive out /\
  thread (fst (fst (start self os))) = Some (still_alive out).
Proof.
  unfold start, run_thread.
  destruct (thread self) as [[|]|]; cbn [hook]; try discriminate;
    destruct (truthy (SetWindowsHookExW os)) eqn:Hh; cbn;
    try destruct (message_loop_exits (GetMessageW os)); cbn;
    intros [= <-]; cbn; auto.
Qed.

Lemma hook_held_iff_thread_alive_witness :
  truthy (hook (fst (fst (start WinDHook_init os_quitting)))) = false /\
  truthy (hook (fst (fst (start WinDHook_init os_running)))) = true.
Proof.
  split.
  - apply (hook_held_iff_thread_alive WinDHook_init os_quitting ThreadExited).
    reflexivity.
  - apply (hook_held_iff_thread_alive WinDHook_init os_running ThreadWaiting).
    reflexivity.
Defined.

Lemma start_thread_flag (self : WinDHook) (os : HookOS) (out : ThreadOutcome) :
  snd (start self os) = Some out ->
  thread (fst (fst (start self os))) = Some (still_alive out).
Proof.
  unfold start.
  destruct (thread self) as [[|]|]; try discriminate;
    destruct (run_thread _ os) as [self' out']; cbn; now intros [= <-].
Qed.

(** X16. [start] is idempotent while the hook runs: once a [start] left its
    thread in the message loop, a further [start] spawns nothing, installs
    nothing and changes nothing, whatever the OS would answer. *)
Theorem start_twice_is_start_once (self : WinDHook) (os os' : HookOS) :
  snd (start self os) = Some ThreadWaiting ->
  start (fst (fst (start self os))) os' =
  (fst (fst (start self os)), Returned, None).
Proof.
  intros Hout.
  pose proof (start_thread_flag self os ThreadWaiting Hout) as Hth.
  unfold start at 1. now rewrite Hth.
Qed.

Lemma start_twice_is_start_once_witness :
  start (fst (fst (start WinDHook_init os_running))) os_refusing_hook =
  (fst (fst (start WinDHook_init os_running)), Returned, None).
Proof.
  apply (start_twice_is_start_once WinDHook_init os_running os_refusing_hook).
  reflexivity.
Defined.

(* ------------------------------------------------------------------ *)
(** ** Autostart *)

Lemma set_autostart_returned (s : Startup) (enabled : bool) :
  snd (set_autostart s enabled) = Returned ->
  is_autostart_enabled (fst (set_autostart s enabled)) = enabled.
Proof.
  unfold set_autostart. destruct s as [l tg ar sd mk com un]. cbn.
  destruct mk, enabled, com, l as [sc|], un; cbn; intros;
    try reflexivity; discriminate.
Qed.

Lemma set_autostart_raised (s : Startup) (enabled : bool) :
  snd (set_autostart s enabled) = Raised ->
  fst (set_autostart s enabled) = s.
Proof.
  unfold set_autostart. destruct s as [l tg ar sd mk com un]. cbn.
  destruct mk, enabled, com, l as [sc|], un; cbn; intros;
    try reflexivity; discriminate.
Qed.

(** X17. When [set_autostart enabled] returns, the shortcut exists exactly
    if [enabled]; when it raises, the Startup folder is as before; and
    asking twice for the same setting leaves the folder as asking once.
    Disabling when no shortcut exists succeeds without deleting anything. *)
Theorem set_autostart_settles (s : Startup) (enabled : bool) :
  (snd (set_autostart s enabled) = Returned ->
   is_autostart_enabled (fst (set_autostart s enabled)) = enabled) /\
  (snd (set_autostart s enabled) = Raised ->
   fst (set_autostart s enabled) = s) /\
  fst (set_autostart (fst (set_autostart s enabled)) enabled) =
    fst (set_autostart s enabled) /\
  (mkdir_ok s = true -> lnk s = None ->
   set_autostart s false = (s, Returned)).
Proof.
  unfold set_autostart.
  destruct s as [l tg ar sd mk com un]. cbn.
  destruct mk, enabled, com, l as [sc|], un; cbn;
    repeat split; intros; try reflexivity; try discriminate.
Qed.

Lemma set_autostart_settles_witness :
  is_autostart_enabled (fst (set_autostart fresh_startup true)) = true /\
  fst (set_autostart broken_startup true) = broken_startup.
Proof.
  split.
  - apply (proj1 (set_autostart_settles fresh_startup true)). reflexivity.
  - apply (proj1 (proj2 (set_autostart_settles broken_startup true))).
    reflexivity.
Defined.

(** X18. The start-up step that applies the autostart preference leaves the
    Startup folder alone when the shortcut already agrees with the
    configuration, even if the folder could not be written; otherwise it
    makes them agree, unless the attempt fails, in which case the folder is
    as before. *)
Theorem autostart_preference_applied (ctrl : Controller) (s : Startup) :
  let s' := apply_autostart_preference ctrl s in
  (is_autostart_enabled s = autostart (cfg ctrl) -> s' = s) /\
  (is_autostart_enabled s' = autostart (cfg ctrl) \/ s' = s) /\
  (mkdir_ok s = true -> com_ok s = true -> unlink_ok s = true ->
   is_autostart_enabled s' = autostart (cfg ctrl)).
Proof.
  unfold apply_autostart_preference.
  pose proof (set_autostart_returned s (autostart (cfg ctrl))) as Hret.
  pose proof (set_autostart_raised s (autostart (cfg ctrl))) as Hraise.
  destruct (Bool.eqb (autostart (cfg ctrl)) (is_autostart_enabled s)) eqn:He;
    cbn [negb].
  - apply Bool.eqb_prop in He. repeat split; auto.
  - split; [|split].
    + intros Heq. rewrite Heq, Bool.eqb_reflx in He. discriminate.
    + destruct (snd (set_autostart s (autostart (cfg ctrl)))) eqn:Hout;
        [left|right]; auto.
    + intros Hmk Hcom Hun. apply Hret. unfold set_autostart.
      rewrite Hmk, Hcom, Hun. cbn.
      destruct (autostart (cfg ctrl)); [reflexivity|].
      now destruct (lnk s).
Qed.

Lemma autostart_preference_applied_witness :
  apply_autostart_preference (Controller_init empty_disk desk) broken_startup
  = broken_startup.
Proof.
  apply (proj1 (autostart_preference_applied
                  (Controller_init empty_disk desk) broken_startup)).
  reflexivity.
Defined.

(** X19. After [on_autostart_toggle] the check box always shows whether the
    shortcut exists, whichever step failed.  When no error dialog was
    opened, the shortcut, the in-memory configuration and the stored
    configuration all agree with the check box, and the stored
    [allowed_monitor] is the one in memory.  The toggle never changes the
    allowed monitor, the phase or the minimized list. *)
Theorem autostart_toggle_consistent (ui : SettingsWindow) (ctrl : Controller)
  (d : Disk) (s : Startup) :
  let '(ui', ctrl', d', s') := on_autostart_toggle ui ctrl d s in
  autostart_var ui' = is_autostart_enabled s' /\
  (errors_shown ui' = errors_shown ui ->
   autostart (cfg ctrl') = autostart_var ui' /\
   load_config d' = cfg ctrl') /\
  allowed_monitor (cfg ctrl') = allowed_monitor (cfg ctrl) /\
  allowed ctrl' = allowed ctrl /\
  toggled ctrl' = toggled ctrl /\
  minimized ctrl' = minimized ctrl.
Proof.
  unfold on_autostart_toggle.
  pose proof (set_autostart_returned s (autostart_var ui)) as Hret.
  destruct (set_autostart s (autostart_var ui)) as [s' [|]]; cbn [fst snd] in *.
  - pose proof (load_saved d (cfg (set_cfg_autostart ctrl (autostart_var ui))))
      as Hload.
    destruct (save_config d _) as [d' [|]] eqn:Hsave; cbn [fst snd] in *.
    + split; [symmetry; now apply Hret|]. split.
      * intros _. split; [reflexivity|now apply Hload].
      * repeat split.
    + cbn. split; [reflexivity|]. split; [intros H; lia|]. repeat split.
  - cbn. split; [reflexivity|]. split; [intros H; lia|]. repeat split.
Qed.

(** Ticking the box on a read-only disk: the shortcut is created, the save
    fails, an error is shown and the box stays ticked. *)
Lemma autostart_toggle_consistent_witness :
  autostart_var
    (fst (fst (fst (on_autostart_toggle ticked
                      (Controller_init readonly_disk desk) readonly_disk
                      fresh_startup)))) = true.
Proof.
  pose proof (autostart_toggle_consistent ticked
                (Controller_init readonly_disk desk) readonly_disk
                fresh_startup) as H.
  destruct (on_autostart_toggle ticked (Controller_init readonly_disk desk)
              readonly_disk fresh_startup) as [[[ui' c'] d'] s'] eqn:E.
  destruct H as [Hbox _]. cbn [fst]. rewrite Hbox.
  injection E as _ _ _ <-. reflexivity.
Defined.

(* ------------------------------------------------------------------ *)
(** ** The monitor menu of the settings window *)

Lemma int_of_decimal_str (z : Z) : int_of_decimal (py_str z) = Some z.
Proof.
  unfold int_of_decimal, py_str. rewrite NilZero.isi.
  - cbn. now rewrite DecimalZ.of_to.
  - destruct z as [|p|p]; cbn; try discriminate.
    intros [= H]. exact (DecimalPos.Unsigned.to_uint_nonnil p H).
  - destruct z as [|p|p]; cbn; try discriminate.
    intros [= H]. exact (DecimalPos.Unsigned.to_uint_nonnil p H).
Qed.

Lemma available_monitor_values_nth (ctrl : Controller) (k : nat) :
  (k < Nat.max 1 (List.length (monitors ctrl)))%nat ->
  nth_error (available_monitor_values ctrl) k = Some (py_str (Z.of_nat (S k))).
Proof.
  intros Hk. unfold available_monitor_values.
  apply (map_nth_error (fun i : nat => py_str (Z.of_nat i)) k
           (seq 1 (Nat.max 1 (List.length (monitors ctrl))))).
  rewrite (nth_error_nth' _ 0%nat) by now rewrite length_seq.
  now rewrite seq_nth.
Qed.

Lemma set_allowed_stores_max (self : Controller) (d : Disk) (idx : Z) :
  allowed (fst (fst (set_allowed self d idx))) = Z.max 0 idx.
Proof. unfold set_allowed. now destruct (save_config d _). Qed.

(** X20. Whatever [int] does on other strings, as long as it reads back
    what [str] prints: choosing the entry at position [k] of the monitor
    menu (the label [k + 1]) makes [k] the allowed monitor index, also when
    saving the configuration fails. *)
Theorem menu_entry_selects_monitor (py_int : string -> option Z)
  (ctrl : Controller) (d : Disk) (k : nat) :
  (forall z, py_int (py_str z) = Some z) ->
  (k < Nat.max 1 (List.length (monitors ctrl)))%nat ->
  exists value,
    nth_error (available_monitor_values ctrl) k = Some value /\
    value = py_str (Z.of_nat k + 1) /\
    allowed (fst (on_monitor_change py_int ctrl d value)) = Z.of_nat k.
Proof.
  intros Hint Hk. exists (py_str (Z.of_nat k + 1)).
  split; [|split; [reflexivity|]].
  - rewrite (available_monitor_values_nth ctrl k Hk). do 2 f_equal. lia.
  - unfold on_monitor_change. rewrite Hint.
    pose proof (set_allowed_stores_max ctrl d (Z.of_nat k + 1 - 1)) as Ha.
    destruct (set_allowed ctrl d (Z.of_nat k + 1 - 1)) as [[c' d'] out].
    cbn [fst] in *. rewrite Ha. lia.
Qed.

(** Choosing "2" on the two-monitor desktop, on a read-only disk. *)
Lemma menu_entry_selects_monitor_witness :
  allowed (fst (on_monitor_change int_of_decimal
                  (Controller_init readonly_disk desk) readonly_disk "2"))
  = 1.
Proof.
  destruct (menu_entry_selects_monitor int_of_decimal
              (Controller_init readonly_disk desk) readonly_disk 1
              int_of_decimal_str) as (value & _ & Hval & Hall).
  - cbn. lia.
  - subst value. exact Hall.
Defined.

(** X21. After [on_refresh], for a non-negative allowed index, the menu
    displays one of the values it offers; the allowed index itself is not
    adjusted.  The display is the allowed monitor's label when that index
    is below the number of labels, and the last label otherwise. *)
Theorem refresh_displays_offered_value (ui : SettingsWindow)
  (ctrl : Controller) (w : World) :
  0 <= allowed ctrl ->
  let ui' := fst (on_refresh ui ctrl w) in
  let ctrl' := snd (on_refresh ui ctrl w) in
  let n := Z.of_nat (Nat.max 1 (List.length (get_monitors w))) in
  In (monitor_var ui') (menu_values ui') /\
  allowed ctrl' = allowed ctrl /\
  (allowed ctrl < n -> monitor_var ui' = py_str (allowed ctrl + 1)) /\
  (n <= allowed ctrl -> monitor_var ui' = py_str n).
Proof.
  intros Hnn ui' ctrl' n. subst ui' ctrl'. unfold on_refresh.
  cbn [fst snd monitor_var menu_values refresh_monitors monitors allowed].
  set (len := List.length (get_monitors w)) in *.
  assert (Hlen : (if Nat.eqb len 0 then 1 else Z.of_nat len) = n).
  { subst n. destruct len; cbn [Nat.eqb]; lia. }
  rewrite Hlen.
  assert (Hn : 1 <= n) by (subst n; lia).
  split; [|split; [reflexivity|split]].
  - unfold available_monitor_values. cbn [monitors]. fold len.
    apply in_map_iff. exists (Z.to_nat (Z.min (allowed ctrl + 1) n)).
    split; [f_equal; lia|]. apply in_seq.
    cbn [monitors refresh_monitors]. fold len. subst n. lia.
  - intros Hlt. f_equal. lia.
  - intros Hge. f_equal. lia.
Qed.

(** Allowed index 5 on the two-monitor desktop: the menu shows "2" and the
    allowed index stays 5. *)
Lemma refresh_displays_offered_value_witness :
  monitor_var
    (fst (on_refresh ticked
            (fst (fst (set_allowed (Controller_init empty_disk desk)
                         empty_disk 5)))
            desk)) = "2"%string /\
  allowed
    (snd (on_refresh ticked
            (fst (fst (set_allowed (Controller_init empty_disk desk)
                         empty_disk 5)))
            desk)) = 5.
Proof.
  destruct (refresh_displays_offered_value ticked
              (fst (fst (set_allowed (Controller_init empty_disk desk)
                           empty_disk 5)))
              desk) as (_ & Hall & _ & Hlast).
  - cbn. lia.
  - split; [|exact Hall]. rewrite Hlast; [reflexivity|cbn; lia].
Defined.

(* ------------------------------------------------------------------ *)
(** ** An allowed index without monitor *)

Lemma monitor_at_point_in_range (mons : list Monitor) (x y : Z) (i : nat) :
  monitor_at_point x y mons = Some i -> (i < List.length mons)%nat.
Proof.
  unfold monitor_at_point. intros H.
  apply monitor_at_point_from_some in H.
  destruct H as (j & m & -> & Hn & _). cbn.
  apply nth_error_Some. congruence.
Qed.

(** X22. When the allowed index designates no monitor of the controller's
    snapshot (it is negative, or not below the number of monitors), every
    trigger leaves the controller unchanged and makes no OS call, wherever
    the cursor is: nothing is minimized and windows minimized earlier are
    not restored. *)
Theorem allowed_without_monitor_disables (self : Controller) (w : World) :
  allowed self < 0 \/ Z.of_nat (List.length (monitors self)) <= allowed self ->
  fst (toggle_desktop_single_monitor self w) = (self, []).
Proof.
  intros Hout. unfold toggle_desktop_single_monitor, get_cursor_monitor_idx.
  destruct (GetCursorPos w) as [[x y]|]; [|reflexivity].
  destruct (monitor_at_point x y (monitors self)) as [i|] eqn:Hm;
    [|reflexivity].
  apply monitor_at_point_in_range in Hm. cbn [idx_eq].
  destruct (Z.eqb_spec (Z.of_nat i) (allowed self)) as [He|Hne];
    [lia|reflexivity].
Qed.

(** "Use Monitor 2" chosen on a desktop whose snapshot has one monitor. *)
Lemma allowed_without_monitor_disables_witness :
  fst (toggle_desktop_single_monitor one_monitor_ctrl desk) =
  (one_monitor_ctrl, []).
Proof.
  apply (allowed_without_monitor_disables one_monitor_ctrl desk).
  right. cbn. lia.
Defined.
